(** * Microstrip patch antenna calculator (v.5.py): the calculation engine

    A shallow embedding of class [MicrostripPatchAntennaCalculator]:
    the six stages, the pipeline [calculate_antenna_parameters] that
    chains them, and the properties of their results.

    Numeric model.  The Python code computes on IEEE binary64 values; here
    every float is read as the real number it stands for and every
    operation as the exact real operation ([np.sqrt] as [sqrt], [np.acos]
    as [acos], [np.log10] as [ln x / ln 10], [np.pi] as [PI]).  Rounding,
    overflow, NaN and infinities are outside the model.  Division is the
    total division of the reals; the theorems carry the hypotheses under
    which no divisor of the code is zero whenever the quotient matters.

    The quadrature routines [scipy.integrate.quad] and
    [scipy.integrate.dblquad] and the Bessel function [scipy.special.j0]
    are library code: the embedding takes them as parameters, with the
    result shapes the code destructures (a pair of value and error
    estimate).

    Module [Float64] repeats the three stages that use only the four
    arithmetic operations and the square root on binary64 numbers, with
    the rounding of the hardware, so that they can be run: it is used to
    evaluate the real-number statements' inputs as the program would.
    It also holds the integrands and [calculate_conductances] on
    binary64 numbers, with [np.sin], [np.cos], [**], [j0] and [quad] as
    parameters: what the code does with NaN is stated there.

    Module [GUI] holds the part of class
    [MicrostripPatchAntennaCalculatorGUI] that decides what is computed,
    shown and exported: [calculate_parameters], [update_results_display],
    [save_results] and the key tables of the panels.  Widgets are reduced
    to the strings they hold; message boxes and the file written are
    recorded as a list of effects in program order.  The builtins
    [str.strip] and [float], the f-string number formats and the clock are
    parameters. *)

From Stdlib Require Import Reals Lra Psatz.
From Stdlib Require Import String List.
From Stdlib Require Floats.
Import ListNotations.

Open Scope R_scope.
Set Warnings "-inexact-float".

(** ** Python and numpy primitives *)

Module Py.

(** [max(a, b)] of two numbers: the first argument unless the second is
    strictly greater. *)
Definition max (a b : R) : R := if Rlt_dec a b then b else a.

(** [np.log10]. *)
Definition log10 (x : R) : R := ln x / ln 10.

End Py.

(** ** The calculator object *)

(** [self]: the only attribute is the speed of light [self.c]. *)
Record MicrostripPatchAntennaCalculator : Type := { c : R }.

(** [__init__]: [self.c = 3e8]. *)
Definition __init__ : MicrostripPatchAntennaCalculator := {| c := 3e8 |}.

(** The dictionary returned by [calculate_antenna_parameters], one field
    per key. *)
Record Results : Type := {
  resonant_frequency : R;
  substrate_permittivity : R;
  substrate_height : R;
  patch_width : R;
  patch_length : R;
  effective_permittivity : R;
  single_slot_conductance : R;
  mutual_conductance : R;
  input_impedance_edge : R;
  feed_position_50ohm : R;
  directivity : R
}.

(** ** Closed-form stages *)

Definition calculate_patch_width
    (self : MicrostripPatchAntennaCalculator) (fr epsilon_r : R) : R :=
  let W := (c self / (2 * fr)) * sqrt (2 / (epsilon_r + 1)) in
  W.

Definition calculate_effective_permittivity
    (self : MicrostripPatchAntennaCalculator) (epsilon_r h W : R) : R :=
  let term := 1 / sqrt (1 + 12 * (h / W)) in
  let epsilon_ref := (epsilon_r + 1) / 2 + (epsilon_r - 1) / 2 * term in
  epsilon_ref.

Definition calculate_patch_length
    (self : MicrostripPatchAntennaCalculator) (fr epsilon_ref h W : R) : R :=
  let term1 := c self / (2 * fr * sqrt epsilon_ref) in
  let term2_numerator := (epsilon_ref + 0.3) * (W / h + 0.264) in
  let term2_denominator := (epsilon_ref - 0.258) * (W / h + 0.8) in
  let term2 := 0.824 * h * (term2_numerator / term2_denominator) in
  let L := term1 - term2 in
  L.

Definition calculate_input_impedance_edge
    (self : MicrostripPatchAntennaCalculator) (G1 G12 : R) : R :=
  let R_in := 1 / (2 * (G1 + G12)) in
  R_in.

Definition calculate_feed_position
    (self : MicrostripPatchAntennaCalculator) (R_in_edge L : R) : R :=
  if Rlt_dec R_in_edge 50 then 0
  else (L / PI) * acos (sqrt (50 / R_in_edge)).

(** ** The closed-form geometry on binary64 numbers *)

Module Float64.
Import PrimFloat.
Local Open Scope float_scope.

(** [self.c] and [np.pi]. *)
Definition c : float := 3e8.
Definition pi : float := 0x1.921fb54442d18p+1.

Definition calculate_patch_width (fr epsilon_r : float) : float :=
  let W := (c / (2 * fr)) * sqrt (2 / (epsilon_r + 1)) in
  W.

Definition calculate_effective_permittivity (epsilon_r h W : float) : float :=
  let term := 1 / sqrt (1 + 12 * (h / W)) in
  let epsilon_ref := (epsilon_r + 1) / 2 + (epsilon_r - 1) / 2 * term in
  epsilon_ref.

Definition calculate_patch_length (fr epsilon_ref h W : float) : float :=
  let term1 := c / (2 * fr * sqrt epsilon_ref) in
  let term2_numerator := (epsilon_ref + 0.3) * (W / h + 0.264) in
  let term2_denominator := (epsilon_ref - 0.258) * (W / h + 0.8) in
  let term2 := 0.824 * h * (term2_numerator / term2_denominator) in
  let L := term1 - term2 in
  L.

(** Steps 1 to 3 of [calculate_antenna_parameters]: width, effective
    permittivity, length. *)
Definition geometry (fr epsilon_r h : float) : float * float * float :=
  let W := calculate_patch_width fr epsilon_r in
  let epsilon_ref := calculate_effective_permittivity epsilon_r h W in
  let L := calculate_patch_length fr epsilon_ref h W in
  (W, epsilon_ref, L).

(** The factor [k0 * W / 2] inside the sine of the three integrands, with
    [k0] as [calculate_conductances] computes it. *)
Definition sine_scale (W fr : float) : float :=
  let lambda_0 := c / fr in
  let k0 := 2 * pi / lambda_0 in
  k0 * W / 2.

(** [lo < x < hi], to read a computed value to a few digits. *)
Definition between (lo x hi : float) : bool := (lo <? x) && (x <? hi).

(** [max(a, b)] on floats: the first argument unless the second is
    strictly greater; a comparison with NaN is false, so a NaN first
    argument is returned. *)
Definition max (a b : float) : float := if a <? b then b else a.

Section Numpy.

(** [np.sin], [np.cos], the operator [**], [scipy.special.j0] and
    [integrate.quad] on binary64 numbers. *)
Variable np_sin : float -> float.
Variable np_cos : float -> float.
Variable power : float -> float -> float.
Variable j0 : float -> float.
Variable quad : (float -> float) -> float -> float -> float * float.

Definition integrand_G1 (k0 W : float) (theta : float) : float :=
  let value1 := np_sin ((k0 * W / 2) * np_cos theta) / np_cos theta in
  let value := (power value1 2) * (power (np_sin theta) 3) in
  value.

Definition integrand_G12 (k0 W L : float) (theta : float) : float :=
  let value1 := np_sin ((k0 * W / 2) * np_cos theta) / np_cos theta in
  let value :=
    (power value1 2) * j0 (k0 * L * np_sin theta)
    * (power (np_sin theta) 3) in
  value.

Definition integrand_I1 (k0 W fr epsilon_ref : float) (theta phi : float)
    : float :=
  let value1 := np_sin ((k0 * W / 2) * np_cos theta) / np_cos theta in
  let term1 := (power value1 2) * (power (np_sin theta) 3) in
  let Leff := c / (2 * fr * sqrt epsilon_ref) in
  let term2 :=
    power (np_cos ((k0 * Leff / 2) * np_sin theta * np_sin phi)) 2 in
  term1 * term2.

(** [calculate_conductances]; [None] stands for the [ZeroDivisionError]
    of the two divisions of Python floats, [self.c / fr] and
    [2 * np.pi / lambda_0]. *)
Definition calculate_conductances (W L fr : float)
    : option (float * float) :=
  if fr =? 0 then None
  else
    let lambda_0 := c / fr in
    if lambda_0 =? 0 then None
    else
      let k0 := 2 * pi / lambda_0 in
      let (G1, _) := quad (integrand_G1 k0 W) 0 pi in
      let (G12, _) := quad (integrand_G12 k0 W L) 0 pi in
      let G1 := G1 / (120 * power pi 2) in
      let G12 := G12 / (120 * power pi 2) in
      Some (max G1 1e-12, max G12 1e-12).

End Numpy.

(** Stand-ins for the library functions, to run the parametric
    statements on closed inputs: the first terms of the sine and cosine
    series, [**] by repeated multiplication for the exponents 2 and 3,
    the first terms of the Bessel series and the two-panel midpoint
    rule. *)
Definition series_sin (x : float) : float := x - x * x * x / 6.

Definition series_cos (x : float) : float := 1 - x * x / 2.

Definition product_power (x n : float) : float :=
  if n =? 2 then x * x else x * x * x.

Definition series_j0 (x : float) : float := 1 - x * x / 4.

Definition midpoint2_quad (f : float -> float) (a b : float)
    : float * float :=
  ((b - a) / 2 * (f ((3 * a + b) / 4) + f ((a + 3 * b) / 4)), 0).

End Float64.

(** ** Stages that call the numerical integrators *)

Section Integrators.

(** [integrate.quad(f, a, b)]: the pair (value, error estimate). *)
Variable quad : (R -> R) -> R -> R -> R * R.

(** [integrate.dblquad(f, a, b, gfun, hfun)] for [f(y, x)], [x] from [a]
    to [b] and [y] from [gfun(x)] to [hfun(x)]: the pair (value, error
    estimate). *)
Variable dblquad :
  (R -> R -> R) -> R -> R -> (R -> R) -> (R -> R) -> R * R.

(** [scipy.special.j0]. *)
Variable j0 : R -> R.

Variable self : MicrostripPatchAntennaCalculator.

Definition integrand_G1 (k0 W : R) (theta : R) : R :=
  let value1 := sin ((k0 * W / 2) * cos theta) / cos theta in
  let value := (value1 ^ 2) * (sin theta ^ 3) in
  value.

Definition integrand_G12 (k0 W L : R) (theta : R) : R :=
  let value1 := sin ((k0 * W / 2) * cos theta) / cos theta in
  let value := (value1 ^ 2) * j0 (k0 * L * sin theta) * (sin theta ^ 3) in
  value.

Definition calculate_conductances (W L fr : R) : R * R :=
  let lambda_0 := c self / fr in
  let k0 := 2 * PI / lambda_0 in
  let (G1, _) := quad (integrand_G1 k0 W) 0 PI in
  let (G12, _) := quad (integrand_G12 k0 W L) 0 PI in
  let G1 := G1 / (120 * PI ^ 2) in
  let G12 := G12 / (120 * PI ^ 2) in
  (Py.max G1 1e-12, Py.max G12 1e-12).

Definition integrand_I1 (k0 W fr epsilon_ref : R) (theta phi : R) : R :=
  let value1 := sin ((k0 * W / 2) * cos theta) / cos theta in
  let term1 := (value1 ^ 2) * (sin theta ^ 3) in
  let Leff := c self / (2 * fr * sqrt epsilon_ref) in
  let term2 := cos ((k0 * Leff / 2) * sin theta * sin phi) ^ 2 in
  term1 * term2.

(** The value [I1] handed to the branch of [calculate_directivity]. *)
Definition directivity_integral (W fr epsilon_ref : R) : R :=
  let lambda_0 := c self / fr in
  let k0 := 2 * PI / lambda_0 in
  fst (dblquad (integrand_I1 k0 W fr epsilon_ref) 0 PI
               (fun _ => 0) (fun _ => PI)).

Definition calculate_directivity (W L fr epsilon_ref : R) : R :=
  let lambda_0 := c self / fr in
  let k0 := 2 * PI / lambda_0 in
  let (I1, error) :=
    dblquad (integrand_I1 k0 W fr epsilon_ref) 0 PI
            (fun _ => 0) (fun _ => PI) in
  if Rlt_dec 0 I1 then
    let D := ((2 * PI * W) / lambda_0) ^ 2 * (PI / I1) in
    let D_dBi := 10 * Py.log10 D in
    D_dBi
  else 0.

Definition calculate_antenna_parameters (fr epsilon_r h : R) : Results :=
  let W := calculate_patch_width self fr epsilon_r in
  let epsilon_ref := calculate_effective_permittivity self epsilon_r h W in
  let L := calculate_patch_length self fr epsilon_ref h W in
  let (G1, G12) := calculate_conductances W L fr in
  let R_in_edge := calculate_input_impedance_edge self G1 G12 in
  let y0 := calculate_feed_position self R_in_edge L in
  let D := calculate_directivity W L fr epsilon_ref in
  {| resonant_frequency := fr;
     substrate_permittivity := epsilon_r;
     substrate_height := h;
     patch_width := W;
     patch_length := L;
     effective_permittivity := epsilon_ref;
     single_slot_conductance := G1;
     mutual_conductance := G12;
     input_impedance_edge := R_in_edge;
     feed_position_50ohm := y0;
     directivity := D |}.

End Integrators.

(** ** Sample integrators

    Concrete instances of the library parameters, used only to run the
    parametric statements on closed inputs: the two-panel midpoint rule
    (it samples the quarter points of the interval, so on [0, PI] it
    stays off the angle PI/2), the Bessel series cut after the quadratic
    term, and a double integrator that reports a given value, which
    drives either branch of [calculate_directivity]. *)

Definition midpoint2_quad (f : R -> R) (a b : R) : R * R :=
  ((b - a) / 2 * (f ((3 * a + b) / 4) + f ((a + 3 * b) / 4)), 0).

Definition series_j0 (x : R) : R := 1 - x ^ 2 / 4.

Definition reporting_dblquad (v : R)
    (f : R -> R -> R) (a b : R) (gfun hfun : R -> R) : R * R :=
  (v, 0).

(** ** Exceptions of the pipeline

    [fr], [epsilon_r] and [h] reach the pipeline as Python floats.  Three
    divisions of Python numbers can meet a zero divisor and raise
    [ZeroDivisionError]: [self.c / (2 * fr)] and [2 / (epsilon_r + 1)] in
    [calculate_patch_width], in that order, and
    [2 * np.pi / lambda_0] in [calculate_conductances], where
    [lambda_0 = self.c / fr] is 0.0 when the speed of light is 0 or when
    [fr] is the float infinity.  A frequency computed as a product is
    that infinity when the exact product is at or beyond the rounding
    boundary [float_overflow] of binary64; a real number there stands
    for it.  With an infinite [fr] no earlier step raises: the width is
    0.0 and the divisions that follow have numpy operands.
    Every other division has a numpy operand (a zero divisor gives a
    warning and a non-finite value, no exception) or a divisor of Python
    floats that is never zero: [2 * (G1 + G12)], [R_in_edge] in the inset
    branch and [I1] in the positive branch; see
    [pipeline_python_divisors].  [np.acos] is taken to exist, as it
    does from numpy 2.0 on. *)

Inductive PyException : Type := ZeroDivisionError.

(** The least magnitude that rounds to an infinite binary64 number:
    [2^1024 - 2^970], half an ulp above the largest finite one. *)
Definition float_overflow : R := IZR (2 ^ 1024 - 2 ^ 970).

Definition calculate_antenna_parameters_checked
    (quad : (R -> R) -> R -> R -> R * R)
    (dblquad : (R -> R -> R) -> R -> R -> (R -> R) -> (R -> R) -> R * R)
    (j0 : R -> R) (self : MicrostripPatchAntennaCalculator)
    (fr epsilon_r h : R) : PyException + Results :=
  if Req_dec_T (2 * fr) 0 then inl ZeroDivisionError
  else if Req_dec_T (epsilon_r + 1) 0 then inl ZeroDivisionError
  else if Req_dec_T (c self / fr) 0 then inl ZeroDivisionError
  else if Rle_dec float_overflow (Rabs fr) then inl ZeroDivisionError
  else inr (calculate_antenna_parameters quad dblquad j0 self fr epsilon_r h).

(** ** The directivity with its partial operations

    What a call of [calculate_directivity] does: it returns a number,
    raises, or returns a value that is no number ([np.log10] of 0 is
    minus infinity, of a negative number NaN, each with a warning). *)

Inductive Outcome : Type :=
| returns (x : R)
| raises (e : PyException)
| not_a_number.

(** [calculate_directivity] again, with the divisions of Python floats
    and the domain of [np.log10] written out.  [self.c / fr] raises for
    [fr = 0] and [2 * np.pi / lambda_0] for [lambda_0 = 0];
    [(2 * np.pi * W) / lambda_0] and [np.pi / I1] are reached with
    nonzero divisors only. *)
Definition calculate_directivity_checked
    (dblquad : (R -> R -> R) -> R -> R -> (R -> R) -> (R -> R) -> R * R)
    (self : MicrostripPatchAntennaCalculator)
    (W L fr epsilon_ref : R) : Outcome :=
  if Req_dec_T fr 0 then raises ZeroDivisionError
  else
    let lambda_0 := c self / fr in
    if Req_dec_T lambda_0 0 then raises ZeroDivisionError
    else
      let k0 := 2 * PI / lambda_0 in
      let (I1, error) :=
        dblquad (integrand_I1 self k0 W fr epsilon_ref) 0 PI
                (fun _ => 0) (fun _ => PI) in
      if Rlt_dec 0 I1 then
        let D := ((2 * PI * W) / lambda_0) ^ 2 * (PI / I1) in
        if Rlt_dec 0 D then
          let D_dBi := 10 * Py.log10 D in
          returns D_dBi
        else not_a_number
      else returns 0.

(** ** The window: inputs, results shown, export *)

Module GUI.
Local Open Scope string_scope.

(** The number formats of the f-strings: [:.2f], [:.3f], [:.2e] and the
    bare [{x}]. *)
Inductive FormatSpec : Type := fmt_2f | fmt_3f | fmt_2e | fmt_plain.

(** Calls of [messagebox] and the file written by [save_results] (its
    name and the arguments of the successive [f.write] calls). *)
Inductive Effect : Type :=
| showerror (title message : string)
| showwarning (title message : string)
| showinfo (title message : string)
| write_file (filename : string) (chunks : list string).


(** The attributes the three methods read and write: [self.calculator],
    the contents of the three entry fields ([self.input_vars]),
    [self.current_results] ([None] until a calculation succeeds) and the
    dictionary [self.result_vars] from result key to the text shown. *)
Record State : Type := {
  calculator : MicrostripPatchAntennaCalculator;
  freq : string;
  epsilon : string;
  height : string;
  current_results : option Results;
  result_vars : string -> option string
}.



(** [not s] for a string [s]. *)
Definition is_empty (s : string) : bool :=
  match s with EmptyString => true | String _ _ => false end.

(** [d[key] = value] on a dictionary. *)
Definition set_item (d : string -> option string) (key value : string)
    : string -> option string :=
  fun k => if String.eqb k key then Some value else d k.

(** [create_result_row]: a new variable showing [--] under [key]. *)
Definition create_result_row (vars : string -> option string)
    (row : string * string * string) : string -> option string :=
  let '(label, key, unit) := row in
  set_item vars key "--".

Definition geom_params : list (string * string * string) :=
  [ ("Ширина патча (W)", "patch_width", "мм");
    ("Длина патча (L)", "patch_length", "мм");
    ("Точка питания (y₀)", "feed_position_50ohm", "мм");
    ("Эффективная εr", "effective_permittivity", EmptyString) ].

Definition elec_params : list (string * string * string) :=
  [ ("Сопр. на краю", "input_impedance_edge", "Ом");
    ("Проводимость G₁", "single_slot_conductance", "См");
    ("Проводимость G₁₂", "mutual_conductance", "См");
    ("Направленность", "directivity", "dBi") ].

(** The keys of the result rows, geometry first. *)
Definition result_keys : list string :=
  map (fun row : string * string * string => snd (fst row))
    (geom_params ++ elec_params)%list.

(** [setup_results_panel]: [self.result_vars] after both loops. *)
Definition setup_results_panel : string -> option string :=
  let result_vars := fun _ : string => None in
  let result_vars := fold_left create_result_row geom_params result_vars in
  fold_left create_result_row elec_params result_vars.

(** The window as [__init__] leaves it: a calculator, the default entries
    of [setup_input_panel], no results, every result row showing [--]. *)
Definition __init__ : State :=
  {| calculator := __init__;
     freq := "2.4"; epsilon := "4.4"; height := "1.6";
     current_results := None;
     result_vars := setup_results_panel |}.

Section Library.

(** [str.strip()]. *)
Variable strip : string -> string.

(** [float(s)]; [None] stands for [ValueError].  A string that Python
    reads as an infinity or as NaN has no real value and is outside the
    model. *)
Variable float : string -> option R.

(** [f"{x:spec}"]. *)
Variable format : FormatSpec -> R -> string.

(** [str(e)] for an exception. *)
Variable exception_text : PyException -> string.

Variable quad : (R -> R) -> R -> R -> R * R.
Variable dblquad :
  (R -> R -> R) -> R -> R -> (R -> R) -> (R -> R) -> R * R.
Variable j0 : R -> R.

Definition formatted_results (results : Results) : list (string * string) :=
  [ ("patch_width", format fmt_2f (patch_width results * 1000));
    ("patch_length", format fmt_2f (patch_length results * 1000));
    ("feed_position_50ohm",
       format fmt_2f (feed_position_50ohm results * 1000));
    ("effective_permittivity",
       format fmt_3f (effective_permittivity results));
    ("input_impedance_edge", format fmt_2f (input_impedance_edge results));
    ("single_slot_conductance",
       format fmt_2e (single_slot_conductance results));
    ("mutual_conductance", format fmt_2e (mutual_conductance results));
    ("directivity", format fmt_2f (directivity results)) ].

(** One turn of the loop of [update_results_display]:
    [if key in self.result_vars: self.result_vars[key].set(value)]. *)
Definition set_shown (vars : string -> option string)
    (item : string * string) : string -> option string :=
  let '(key, value) := item in
  match vars key with
  | Some _ => set_item vars key value
  | None => vars
  end.

Definition update_results_display (g : State) (results : Results) : State :=
  {| calculator := calculator g;
     freq := freq g; epsilon := epsilon g; height := height g;
     current_results := current_results g;
     result_vars :=
       fold_left set_shown (formatted_results results) (result_vars g) |}.

Definition calculate_parameters (g : State) : State * list Effect :=
  let freq := strip (freq g) in
  let epsilon := strip (epsilon g) in
  let height := strip (height g) in
  if (is_empty freq || is_empty epsilon || is_empty height)%bool then
    (g, [showerror "Ошибка" "Все поля должны быть заполнены"])
  else
    match float freq, float epsilon, float height with
    | Some f, Some e, Some h' =>
        let fr := f * 1e9 in
        let epsilon_r := e in
        let h := h' * 1e-3 in
        match calculate_antenna_parameters_checked quad dblquad j0
                (calculator g) fr epsilon_r h with
        | inr results =>
            let g := {| calculator := calculator g;
                        freq := GUI.freq g; epsilon := GUI.epsilon g;
                        height := GUI.height g;
                        current_results := Some results;
                        result_vars := result_vars g |} in
            (update_results_display g results, [])
        | inl e =>
            (g, [showerror "Ошибка" ("Ошибка расчета: " ++ exception_text e)])
        end
    | _, _, _ =>
        (g, [showerror "Ошибка" "Все параметры должны быть числами"])
    end.



End Library.

End GUI.

(** Instances of the window's parameters for the closed examples:
    [strip] on entries without outer white space, a format that prints a
    mark, the text of the exception, and a table of [float] on the
    strings typed in. *)
Definition strip_trimmed (s : string) : string := s.

Definition format_mark (spec : GUI.FormatSpec) (x : R) : string := "#"%string.

Definition zero_division_text (e : PyException) : string :=
  "float division by zero"%string.


Definition float_table (s : string) : option R :=
  if String.eqb s "2.4" then Some 2.4
  else if String.eqb s "4.4" then Some 4.4
  else if String.eqb s "1.6" then Some 1.6
  else if String.eqb s "0" then Some 0
  else None.

(** ** Auxiliary definitions *)

(** The weight [1 / sqrt (1 + 12 (h / W))] that
    [calculate_effective_permittivity] binds to [term]. *)
Definition fringe_weight (h W : R) : R := 1 / sqrt (1 + 12 * (h / W)).

(** Decimal literals are rationals injected into the reals: expose the
    numerator and denominator so that [field] can read them. *)
Ltac expose_decimals :=
  cbv beta iota zeta delta [Q2R QArith_base.Qnum QArith_base.Qden] in *.

(** ** Auxiliary facts *)

Lemma py_max_ge_r (a b : R) : b <= Py.max a b.
Proof. unfold Py.max. destruct (Rlt_dec a b); lra. Qed.

Lemma py_max_ge_l (a b : R) : a <= Py.max a b.
Proof. unfold Py.max. destruct (Rlt_dec a b); lra. Qed.

Lemma py_max_Rmax (a b : R) : Py.max a b = Rmax a b.
Proof.
  unfold Py.max, Rmax.
  destruct (Rlt_dec a b), (Rle_dec a b); lra.
Qed.

Lemma log10_Rpower (x : R) : 0 < x -> Rpower 10 (Py.log10 x) = x.
Proof.
  intros Hx. unfold Rpower, Py.log10.
  assert (Hl : ln 10 <> 0).
  { assert (0 < ln 10) by (rewrite <- ln_1; apply ln_increasing; lra). lra. }
  replace (ln x / ln 10 * ln 10) with (ln x) by (field; exact Hl).
  apply exp_ln, Hx.
Qed.

Lemma conductances_fst quad j0 self W L fr :
  fst (calculate_conductances quad j0 self W L fr) =
  Py.max (fst (quad (integrand_G1 (2 * PI / (c self / fr)) W) 0 PI)
          / (120 * PI ^ 2)) 1e-12.
Proof.
  unfold calculate_conductances.
  destruct (quad (integrand_G1 _ W) 0 PI) as [g1 e1].
  destruct (quad (integrand_G12 j0 _ W L) 0 PI) as [g12 e12].
  reflexivity.
Qed.

Lemma conductances_snd quad j0 self W L fr :
  snd (calculate_conductances quad j0 self W L fr) =
  Py.max (fst (quad (integrand_G12 j0 (2 * PI / (c self / fr)) W L) 0 PI)
          / (120 * PI ^ 2)) 1e-12.
Proof.
  unfold calculate_conductances.
  destruct (quad (integrand_G1 _ W) 0 PI) as [g1 e1].
  destruct (quad (integrand_G12 j0 _ W L) 0 PI) as [g12 e12].
  reflexivity.
Qed.

(** ** Patch width *)

(** C7: with the calculator as constructed ([self.c = 3e8], which is not
    the more precise 2.998e8), the patch width is
    [(3e8 / (2 fr)) * sqrt (2 / (epsilon_r + 1))] for every [fr > 0] and
    [epsilon_r > -1]; on that domain the divisors are nonzero and the
    width is strictly positive. *)
Theorem patch_width_formula (fr epsilon_r : R) :
  0 < fr -> -1 < epsilon_r ->
  c __init__ = 3 * 10 ^ 8 /\
  c __init__ <> 2.998e8 /\
  calculate_patch_width __init__ fr epsilon_r =
    (3e8 / (2 * fr)) * sqrt (2 / (epsilon_r + 1)) /\
  2 * fr <> 0 /\ epsilon_r + 1 <> 0 /\
  0 < calculate_patch_width __init__ fr epsilon_r.
Proof.
  intros Hfr Her.
  unfold calculate_patch_width, __init__; simpl.
  repeat split; try lra.
  apply Rmult_lt_0_compat.
  - apply Rdiv_lt_0_compat; lra.
  - apply sqrt_lt_R0, Rdiv_lt_0_compat; lra.
Qed.

Lemma patch_width_formula_witness :
  (0 < 150000000 /\ -1 < 1) /\
  calculate_patch_width __init__ 150000000 1 =
    (3e8 / (2 * 150000000)) * sqrt (2 / (1 + 1)).
Proof.
  split; [lra | apply (patch_width_formula 150000000 1); lra].
Defined.

(** ** Patch length *)

(** C6: for [fr > 0], [epsilon_ref > 0.258], [h > 0], [W > 0] the patch
    length is [c / (2 fr sqrt epsilon_ref) - 2 dL] with the fringing
    extension
    [dL = 0.412 h (epsilon_ref + 0.3) (W/h + 0.264)
          / ((epsilon_ref - 0.258) (W/h + 0.8))],
    and no divisor of the formula is zero. *)
Theorem patch_length_formula
    (self : MicrostripPatchAntennaCalculator) (fr epsilon_ref h W : R) :
  0 < fr -> 0.258 < epsilon_ref -> 0 < h -> 0 < W ->
  let dL := 0.412 * h * (epsilon_ref + 0.3) * (W / h + 0.264)
            / ((epsilon_ref - 0.258) * (W / h + 0.8)) in
  calculate_patch_length self fr epsilon_ref h W =
    c self / (2 * fr * sqrt epsilon_ref) - 2 * dL /\
  2 * fr * sqrt epsilon_ref <> 0 /\
  (epsilon_ref - 0.258) * (W / h + 0.8) <> 0.
Proof.
  intros Hfr He Hh HW dL.
  assert (Hs : 0 < sqrt epsilon_ref) by (apply sqrt_lt_R0; lra).
  assert (Hq : 0 < W / h) by (apply Rdiv_lt_0_compat; lra).
  assert (Hd : 0 < (epsilon_ref - 0.258) * (W / h + 0.8))
    by (apply Rmult_lt_0_compat; lra).
  repeat split.
  - unfold calculate_patch_length, dL. expose_decimals. field.
    repeat split; lra.
  - apply Rgt_not_eq. apply Rmult_lt_0_compat; lra.
  - lra.
Qed.

Lemma patch_length_formula_witness :
  (0 < 150000000 /\ 0.258 < 1 /\ 0 < 1 /\ 0 < 1) /\
  calculate_patch_length __init__ 150000000 1 1 1 =
    c __init__ / (2 * 150000000 * sqrt 1)
    - 2 * (0.412 * 1 * (1 + 0.3) * (1 / 1 + 0.264)
           / ((1 - 0.258) * (1 / 1 + 0.8))).
Proof.
  split; [lra | apply (patch_length_formula __init__ 150000000 1 1 1); lra].
Defined.

(** ** Radiation conductances *)


(** C10: the single-slot conductance, first component of the result, is
    the same for any two patch lengths: [L] reaches only the integrand of
    the mutual conductance. *)
Theorem conductance_G1_independent_of_L
    (quad : (R -> R) -> R -> R -> R * R) (j0 : R -> R)
    (self : MicrostripPatchAntennaCalculator) (W fr L1 L2 : R) :
  fst (calculate_conductances quad j0 self W L1 fr) =
  fst (calculate_conductances quad j0 self W L2 fr).
Proof.
  rewrite !conductances_fst. reflexivity.
Qed.

(** ** Input impedance at the edge *)

(** C8: the edge impedance is [1 / (2 (G1 + G12))]; when both
    conductances are at least [1e-12] it is strictly positive and at most
    [2.5e11], so below the ceiling [5e11], and its divisor is nonzero. *)
Theorem input_impedance_edge_bounds
    (self : MicrostripPatchAntennaCalculator) (G1 G12 : R) :
  1e-12 <= G1 -> 1e-12 <= G12 ->
  calculate_input_impedance_edge self G1 G12 = 1 / (2 * (G1 + G12)) /\
  2 * (G1 + G12) <> 0 /\
  0 < calculate_input_impedance_edge self G1 G12 /\
  calculate_input_impedance_edge self G1 G12 <= 2.5e11 /\
  calculate_input_impedance_edge self G1 G12 <= 5e11.
Proof.
  intros H1 H2. unfold calculate_input_impedance_edge.
  assert (Hd : 4e-12 <= 2 * (G1 + G12)) by lra.
  assert (Hp : 0 < 2 * (G1 + G12)) by lra.
  assert (Hb : 1 / (2 * (G1 + G12)) <= 2.5e11).
  { apply (Rmult_le_reg_r (2 * (G1 + G12))); [exact Hp | ].
    unfold Rdiv. rewrite Rmult_assoc, Rinv_l by lra. lra. }
  assert (Hq : 0 < 1 / (2 * (G1 + G12))) by (apply Rdiv_lt_0_compat; lra).
  repeat split; lra.
Qed.

Lemma input_impedance_edge_bounds_witness :
  (1e-12 <= 1e-12 /\ 1e-12 <= 1e-12) /\
  0 < calculate_input_impedance_edge __init__ 1e-12 1e-12 /\
  calculate_input_impedance_edge __init__ 1e-12 1e-12 <= 2.5e11.
Proof.
  split; [lra | ].
  destruct (input_impedance_edge_bounds __init__ 1e-12 1e-12)
    as (_ & _ & Hpos & Hle & _); [lra | lra | ].
  split; [exact Hpos | exact Hle].
Defined.

(** The ceiling [2.5e11] is reached at the floor of both conductances. *)
Lemma input_impedance_edge_at_floor :
  calculate_input_impedance_edge __init__ 1e-12 1e-12 = 2.5e11.
Proof.
  unfold calculate_input_impedance_edge. expose_decimals. field.
Qed.

(** ** Directivity *)

(** C5: for [fr <> 0] (and a nonzero speed of light, so that the
    wavelength is not 0 and nothing raises), with [I1] the value of the
    double integral and [D = (2 PI W / lambda_0)^2 (PI / I1)],
    [lambda_0 = c / fr]: when [I1 <= 0] the call returns the sentinel 0
    without dividing by [I1] or taking a logarithm; when [I1 > 0] and
    [W <> 0], [D] is positive and the call returns the decimal logarithm
    of [D] times 10, that is [10 ln D / ln 10], the number [x] with
    [10 ^ (x / 10) = D]; when [I1 > 0] and [W = 0], [D] is 0 and its
    logarithm is no number. *)
Theorem directivity_sentinel
    (dblquad : (R -> R -> R) -> R -> R -> (R -> R) -> (R -> R) -> R * R)
    (self : MicrostripPatchAntennaCalculator) (W L fr epsilon_ref : R) :
  fr <> 0 -> c self <> 0 ->
  let I1 := directivity_integral dblquad self W fr epsilon_ref in
  let lambda_0 := c self / fr in
  let D := ((2 * PI * W) / lambda_0) ^ 2 * (PI / I1) in
  let call := calculate_directivity_checked dblquad self W L fr epsilon_ref in
  let value := calculate_directivity dblquad self W L fr epsilon_ref in
  (I1 <= 0 -> call = returns 0 /\ value = 0) /\
  (0 < I1 -> W <> 0 ->
   0 < D /\ call = returns value /\
   value = 10 * (ln D / ln 10) /\ Rpower 10 (value / 10) = D) /\
  (0 < I1 -> W = 0 -> call = not_a_number).
Proof.
  intros Hfr Hc I1 lambda_0 D call value.
  subst I1 lambda_0 D call value.
  assert (Hl : c self / fr <> 0).
  { unfold Rdiv. intros E. apply Rmult_integral in E.
    destruct E as [E | E]; [contradiction | ].
    exact (Rinv_neq_0_compat fr Hfr E). }
  pose proof PI_RGT_0 as HPI.
  unfold directivity_integral, calculate_directivity_checked,
    calculate_directivity.
  destruct (Req_dec_T fr 0) as [E | _]; [contradiction | ].
  destruct (Req_dec_T (c self / fr) 0) as [E | _]; [contradiction | ].
  destruct (dblquad _ 0 PI _ _) as [I1 err]. simpl fst.
  destruct (Rlt_dec 0 I1) as [Hpos | Hneg].
  - split; [intros H; exfalso; lra | ].
    split.
    + intros _ HW.
      assert (Hq : 2 * PI * W / (c self / fr) <> 0).
      { unfold Rdiv. apply Rmult_integral_contrapositive_currified.
        - apply Rmult_integral_contrapositive_currified; lra.
        - apply Rinv_neq_0_compat, Hl. }
      assert (HD : 0 < (2 * PI * W / (c self / fr)) ^ 2 * (PI / I1)).
      { apply Rmult_lt_0_compat.
        - rewrite <- Rsqr_pow2. apply Rsqr_pos_lt, Hq.
        - apply Rdiv_lt_0_compat; lra. }
      destruct (Rlt_dec 0 _) as [_ | Hn]; [ | contradiction].
      split; [exact HD | ]. split; [reflexivity | ].
      split; [reflexivity | ].
      replace (10 * Py.log10 ((2 * PI * W / (c self / fr)) ^ 2 * (PI / I1))
               / 10)
        with (Py.log10 ((2 * PI * W / (c self / fr)) ^ 2 * (PI / I1)))
        by lra.
      apply log10_Rpower, HD.
    + intros _ ->.
      destruct (Rlt_dec 0 _) as [Hp | _]; [exfalso | reflexivity].
      replace (2 * PI * 0 / (c self / fr)) with 0 in Hp
        by (unfold Rdiv; ring).
      rewrite pow_ne_zero, Rmult_0_l in Hp by discriminate. lra.
  - split; [intros _; split; reflexivity | ].
    split; intros H; exfalso; lra.
Qed.

Lemma directivity_sentinel_witness :
  (1.5e9 <> 0 /\ c __init__ <> 0 /\ 0.1 <> 0 /\
   directivity_integral (reporting_dblquad (-1e-20)) __init__ 0.1 1.5e9 1 <= 0
   /\ 0 < directivity_integral (reporting_dblquad 2) __init__ 0.1 1.5e9 1) /\
  calculate_directivity_checked (reporting_dblquad (-1e-20)) __init__
    0.1 0.1 1.5e9 1 = returns 0 /\
  calculate_directivity (reporting_dblquad 2) __init__ 0.1 0.1 1.5e9 1
    = 10 * (ln (((2 * PI * 0.1) / (c __init__ / 1.5e9)) ^ 2 * (PI / 2))
            / ln 10).
Proof.
  assert (Hf : 1.5e9 <> 0) by lra.
  assert (Hc : c __init__ <> 0) by (simpl; lra).
  assert (HW : 0.1 <> 0) by lra.
  assert (Hn : directivity_integral (reporting_dblquad (-1e-20))
                 __init__ 0.1 1.5e9 1 <= 0)
    by (unfold directivity_integral, reporting_dblquad; simpl; lra).
  assert (Hp : 0 < directivity_integral (reporting_dblquad 2)
                 __init__ 0.1 1.5e9 1)
    by (unfold directivity_integral, reporting_dblquad; simpl; lra).
  split; [repeat split; assumption | ].
  split.
  - exact (proj1 (proj1 (directivity_sentinel (reporting_dblquad (-1e-20))
                           __init__ 0.1 0.1 1.5e9 1 Hf Hc) Hn)).
  - destruct (proj1 (proj2 (directivity_sentinel (reporting_dblquad 2)
                              __init__ 0.1 0.1 1.5e9 1 Hf Hc)) Hp HW)
      as (_ & _ & Hv & _).
    exact Hv.
Defined.

(** ** Effective permittivity *)

Section EffectivePermittivity.

Variable self : MicrostripPatchAntennaCalculator.

Lemma effective_permittivity_weight (epsilon_r h W : R) :
  calculate_effective_permittivity self epsilon_r h W =
  (epsilon_r + 1) / 2 + (epsilon_r - 1) / 2 * fringe_weight h W.
Proof. reflexivity. Qed.

Lemma fringe_weight_bounds (h W : R) :
  0 < h -> 0 < W -> 0 < fringe_weight h W < 1.
Proof.
  intros Hh HW. unfold fringe_weight.
  assert (Hq : 0 < h / W) by (apply Rdiv_lt_0_compat; assumption).
  assert (Hs : 1 < sqrt (1 + 12 * (h / W))).
  { rewrite <- sqrt_1 at 1. apply sqrt_lt_1; lra. }
  split.
  - apply Rdiv_lt_0_compat; lra.
  - apply (Rmult_lt_reg_r (sqrt (1 + 12 * (h / W)))); [lra | ].
    unfold Rdiv. rewrite Rmult_assoc, Rinv_l by lra. lra.
Qed.

Lemma fringe_weight_decreasing (h W h' W' : R) :
  0 < h -> 0 < W -> h / W < h' / W' ->
  fringe_weight h' W' < fringe_weight h W.
Proof.
  intros Hh HW Hlt. unfold fringe_weight.
  assert (Hq : 0 < h / W) by (apply Rdiv_lt_0_compat; assumption).
  assert (Hs : 0 < sqrt (1 + 12 * (h / W))) by (apply sqrt_lt_R0; lra).
  assert (Hss : sqrt (1 + 12 * (h / W)) < sqrt (1 + 12 * (h' / W')))
    by (apply sqrt_lt_1; lra).
  unfold Rdiv at 1 3. rewrite !Rmult_1_l.
  apply Rinv_lt_contravar; [ | exact Hss].
  apply Rmult_lt_0_compat; lra.
Qed.

End EffectivePermittivity.

(** C2, the claim at [epsilon_r = 1]: the input is in the stated domain,
    the value is [1 = (epsilon_r + 1) / 2], so it is not in the half-open
    interval (which is empty there), and raising [h / W] from 1 to 2 does
    not lower it. *)
Lemma effective_permittivity_unit_permittivity :
  (1 <= 1 /\ 0 < 1 /\ 0 < 2 /\ 1 / 1 < 2 / 1) /\
  calculate_effective_permittivity __init__ 1 1 1 = (1 + 1) / 2 /\
  ~ ((1 + 1) / 2 < calculate_effective_permittivity __init__ 1 1 1 <= 1) /\
  ~ (calculate_effective_permittivity __init__ 1 2 1 <
     calculate_effective_permittivity __init__ 1 1 1).
Proof.
  assert (E : forall h W, calculate_effective_permittivity __init__ 1 h W = 1).
  { intros h W. rewrite effective_permittivity_weight. lra. }
  rewrite !E. repeat split; lra.
Qed.

(** C2, amended: for [epsilon_r >= 1] and positive [h], [W] the value
    lies in the closed interval from [(epsilon_r + 1) / 2] to
    [epsilon_r]; it equals 1 when [epsilon_r = 1]; and when
    [epsilon_r > 1] it is strictly above [(epsilon_r + 1) / 2], strictly
    below [epsilon_r], and strictly decreasing in the ratio [h / W]. *)
Theorem effective_permittivity_range
    (self : MicrostripPatchAntennaCalculator) (epsilon_r h W h' W' : R) :
  1 <= epsilon_r -> 0 < h -> 0 < W -> 0 < h' -> 0 < W' ->
  let eff := calculate_effective_permittivity self epsilon_r in
  (epsilon_r + 1) / 2 <= eff h W <= epsilon_r /\
  (epsilon_r = 1 -> eff h W = 1) /\
  (1 < epsilon_r -> (epsilon_r + 1) / 2 < eff h W < epsilon_r) /\
  (1 < epsilon_r -> h / W < h' / W' -> eff h' W' < eff h W).
Proof.
  intros He Hh HW Hh' HW' eff. subst eff.
  rewrite !effective_permittivity_weight.
  pose proof (fringe_weight_bounds h W Hh HW) as [Hw0 Hw1].
  repeat split.
  - nra.
  - nra.
  - intros ->. lra.
  - nra.
  - nra.
  - intros H1 Hlt.
    pose proof (fringe_weight_decreasing h W h' W' Hh HW Hlt). nra.
Qed.

Lemma effective_permittivity_range_witness :
  (1 <= 4.4 /\ 0 < 1.6e-3 /\ 0 < 0.038 /\ 0 < 3.2e-3 /\ 0 < 0.038) /\
  (4.4 + 1) / 2 < calculate_effective_permittivity __init__ 4.4 1.6e-3 0.038
    < 4.4 /\
  calculate_effective_permittivity __init__ 4.4 3.2e-3 0.038 <
  calculate_effective_permittivity __init__ 4.4 1.6e-3 0.038.
Proof.
  split; [lra | ].
  destruct (effective_permittivity_range __init__ 4.4 1.6e-3 0.038
              3.2e-3 0.038) as (_ & _ & Hin & Hdec); lra.
Defined.

(** ** Feed position *)

(** Arc cosine near 1: above the cosine of an angle of [(0, PI]] the arc
    cosine stays below that angle. *)
Lemma acos_below (eta x : R) :
  0 < eta <= PI -> cos eta < x <= 1 -> acos x < eta.
Proof.
  intros [He0 He1] [Hx0 Hx1].
  destruct (Rlt_dec (acos x) eta) as [Hlt | Hge]; [exact Hlt | exfalso].
  pose proof (acos_bound x) as [Ha0 Ha1].
  pose proof (COS_bound eta) as [Hc _].
  assert (Hcos : cos (acos x) <= cos eta)
    by (apply cos_decr_1; lra).
  rewrite cos_acos in Hcos by lra. lra.
Qed.

Lemma acos_quarter_turn (x : R) : 0 < x <= 1 -> 0 <= acos x < PI / 2.
Proof.
  intros Hx. split; [apply acos_bound | ].
  apply acos_below.
  - pose proof PI2_RGT_0. pose proof PI2_Rlt_PI. lra.
  - rewrite cos_PI2. exact Hx.
Qed.

(** In the inset branch the argument of the arc cosine is in [(0, 1]]. *)
Lemma inset_ratio_bounds (R_in_edge : R) :
  50 <= R_in_edge -> 0 < sqrt (50 / R_in_edge) <= 1.
Proof.
  intros HR.
  assert (Hq : 0 < 50 / R_in_edge) by (apply Rdiv_lt_0_compat; lra).
  assert (Hq1 : 50 / R_in_edge <= 1).
  { apply (Rmult_le_reg_r R_in_edge); [lra | ].
    unfold Rdiv. rewrite Rmult_assoc, Rinv_l by lra. lra. }
  split; [apply sqrt_lt_R0, Hq | ].
  rewrite <- sqrt_1. apply sqrt_le_1; lra.
Qed.

Section FeedPosition.

Variable self : MicrostripPatchAntennaCalculator.

Lemma feed_position_edge (R_in_edge L : R) :
  R_in_edge < 50 -> calculate_feed_position self R_in_edge L = 0.
Proof.
  intros H. unfold calculate_feed_position.
  destruct (Rlt_dec R_in_edge 50); [reflexivity | contradiction].
Qed.

Lemma feed_position_inset (R_in_edge L : R) :
  50 <= R_in_edge ->
  calculate_feed_position self R_in_edge L =
  (L / PI) * acos (sqrt (50 / R_in_edge)).
Proof.
  intros H. unfold calculate_feed_position.
  destruct (Rlt_dec R_in_edge 50); [lra | reflexivity].
Qed.

(** The fraction [acos (sqrt (50 / R)) / PI] of the length lies in
    [[0, 1/2)]. *)
Lemma inset_fraction_bounds (R_in_edge : R) :
  50 <= R_in_edge ->
  0 <= acos (sqrt (50 / R_in_edge)) / PI < 1 / 2.
Proof.
  intros HR.
  pose proof (acos_quarter_turn _ (inset_ratio_bounds R_in_edge HR))
    as [Ha0 Ha1].
  pose proof PI_RGT_0 as HPI.
  split.
  - apply Rmult_le_pos; [exact Ha0 | ].
    apply Rlt_le, Rinv_0_lt_compat, HPI.
  - apply (Rmult_lt_reg_r PI); [exact HPI | ].
    unfold Rdiv. rewrite Rmult_assoc, Rinv_l by lra. lra.
Qed.

Lemma feed_position_fraction (R_in_edge L : R) :
  50 <= R_in_edge ->
  calculate_feed_position self R_in_edge L =
  L * (acos (sqrt (50 / R_in_edge)) / PI).
Proof.
  intros HR. rewrite feed_position_inset by exact HR.
  unfold Rdiv. ring.
Qed.

Lemma feed_position_nonneg_length (R_in_edge L : R) :
  0 <= L -> 0 <= calculate_feed_position self R_in_edge L <= L / 2.
Proof.
  intros HL.
  destruct (Rlt_dec R_in_edge 50) as [Hlt | Hge].
  - rewrite feed_position_edge by exact Hlt. lra.
  - assert (HR : 50 <= R_in_edge) by lra.
    rewrite feed_position_fraction by exact HR.
    pose proof (inset_fraction_bounds R_in_edge HR). nra.
Qed.

Lemma feed_position_neg_length (R_in_edge L : R) :
  L < 0 -> L / 2 < calculate_feed_position self R_in_edge L.
Proof.
  intros HL.
  destruct (Rlt_dec R_in_edge 50) as [Hlt | Hge].
  - rewrite feed_position_edge by exact Hlt. lra.
  - assert (HR : 50 <= R_in_edge) by lra.
    rewrite feed_position_fraction by exact HR.
    pose proof (inset_fraction_bounds R_in_edge HR). nra.
Qed.

Lemma feed_position_boundary (L : R) :
  calculate_feed_position self 50 L = 0.
Proof.
  rewrite feed_position_inset by lra.
  replace (50 / 50) with 1 by field.
  rewrite sqrt_1, acos_1. ring.
Qed.

End FeedPosition.

(** Continuity of the feed position in the edge impedance at the branch
    point: left of 50 the value is 0, right of 50 the arc cosine of a
    number close to 1 is small. *)
Lemma feed_position_continuous_at_50
    (self : MicrostripPatchAntennaCalculator) (L : R) :
  continuity_pt (fun R_in_edge => calculate_feed_position self R_in_edge L) 50.
Proof.
  pose proof PI_RGT_0 as HPI. pose proof PI2_1 as HPI1.
  set (K := Rabs L).
  assert (HK : 0 <= K) by apply Rabs_pos.
  intros eps Heps.
  set (eta := Rmin (eps / (K + 1)) 1).
  assert (Hq : 0 < eps / (K + 1)) by (apply Rdiv_lt_0_compat; lra).
  assert (Heta0 : 0 < eta) by (apply Rmin_glb_lt; lra).
  assert (Heta1 : eta <= 1) by apply Rmin_r.
  assert (Hetae : eta <= eps / (K + 1)) by apply Rmin_l.
  assert (Hc0 : 0 < cos eta) by (apply cos_gt_0; lra).
  assert (Hc1 : cos eta < 1).
  { rewrite <- cos_0. apply cos_decreasing_1; lra. }
  exists (50 / cos eta - 50). split.
  - assert (50 < 50 / cos eta); [ | lra].
    apply (Rmult_lt_reg_r (cos eta)); [exact Hc0 | ].
    unfold Rdiv. rewrite Rmult_assoc, Rinv_l by lra. lra.
  - intros r [_ Hdist]. simpl in *. unfold R_dist in *.
    rewrite feed_position_boundary, Rminus_0_r.
    destruct (Rlt_dec r 50) as [Hlt | Hge].
    + rewrite feed_position_edge by exact Hlt. rewrite Rabs_R0. exact Heps.
    + assert (Hr : 50 <= r) by lra.
      rewrite feed_position_fraction by exact Hr.
      assert (Hrd : r < 50 / cos eta).
      { rewrite Rabs_pos_eq in Hdist by lra. lra. }
      assert (Hratio : cos eta < 50 / r).
      { apply (Rmult_lt_reg_r r); [lra | ].
        unfold Rdiv at 1. rewrite Rmult_assoc, Rinv_l by lra.
        apply (Rmult_lt_compat_r (cos eta)) in Hrd; [ | exact Hc0].
        unfold Rdiv in Hrd. rewrite Rmult_assoc, Rinv_l in Hrd by lra. lra. }
      pose proof (inset_ratio_bounds r Hr) as [Hs0 Hs1].
      assert (Hsq : 50 / r <= sqrt (50 / r)).
      { assert (Hx : 0 < 50 / r) by (apply Rdiv_lt_0_compat; lra).
        pose proof (sqrt_sqrt (50 / r) (Rlt_le _ _ Hx)). nra. }
      assert (Ha : acos (sqrt (50 / r)) < eta)
        by (apply acos_below; lra).
      pose proof (inset_fraction_bounds r Hr) as [Hf0 Hf1].
      assert (Hf : acos (sqrt (50 / r)) / PI < eps / (K + 1)).
      { apply Rle_lt_trans with (acos (sqrt (50 / r)) / 1).
        - unfold Rdiv. apply Rmult_le_compat_l; [apply acos_bound | ].
          apply Rinv_le_contravar; lra.
        - lra. }
      rewrite Rabs_mult. fold K.
      rewrite (Rabs_pos_eq (acos (sqrt (50 / r)) / PI)) by exact Hf0.
      apply Rle_lt_trans with (K * (eps / (K + 1))).
      * apply Rmult_le_compat_l; lra.
      * apply (Rmult_lt_reg_r (K + 1)); [lra | ].
        unfold Rdiv. rewrite !Rmult_assoc, Rinv_l by lra. nra.
Qed.

(** C1: the feed position is exactly 0 whenever [R_in_edge < 50] and
    [(L / PI) acos (sqrt (50 / R_in_edge))] whenever [R_in_edge >= 50]; at
    [R_in_edge = 50] the inset formula gives 0 as well, so both branches
    agree there and the function of [R_in_edge] is continuous at 50. *)
Theorem feed_position_branches
    (self : MicrostripPatchAntennaCalculator) (R_in_edge L : R) :
  (R_in_edge < 50 -> calculate_feed_position self R_in_edge L = 0) /\
  (50 <= R_in_edge ->
   calculate_feed_position self R_in_edge L =
     (L / PI) * acos (sqrt (50 / R_in_edge))) /\
  (L / PI) * acos (sqrt (50 / 50)) = 0 /\
  calculate_feed_position self 50 L = 0 /\
  continuity_pt (fun r => calculate_feed_position self r L) 50.
Proof.
  split; [apply feed_position_edge | ].
  split; [apply feed_position_inset | ].
  split; [ | split].
  - rewrite <- (feed_position_inset self 50 L) by lra.
    apply feed_position_boundary.
  - apply feed_position_boundary.
  - apply feed_position_continuous_at_50.
Qed.

Lemma feed_position_branches_witness :
  (30 < 50 /\ 50 <= 200) /\
  calculate_feed_position __init__ 30 0.029 = 0 /\
  calculate_feed_position __init__ 200 0.029 =
    (0.029 / PI) * acos (sqrt (50 / 200)).
Proof.
  split; [lra | ]. split.
  - apply (proj1 (feed_position_branches __init__ 30 0.029)). lra.
  - apply (proj1 (proj2 (feed_position_branches __init__ 200 0.029))). lra.
Defined.

(** ** The pipeline *)

Section Pipeline.

Variable quad : (R -> R) -> R -> R -> R * R.
Variable dblquad :
  (R -> R -> R) -> R -> R -> (R -> R) -> (R -> R) -> R * R.
Variable j0 : R -> R.
Variable self : MicrostripPatchAntennaCalculator.

Lemma pipeline_patch_width (fr epsilon_r h : R) :
  patch_width
    (calculate_antenna_parameters quad dblquad j0
       self fr epsilon_r h) =
  calculate_patch_width self fr epsilon_r.
Proof.
  unfold calculate_antenna_parameters.
  destruct (calculate_conductances _ _ _ _ _ _); reflexivity.
Qed.

Lemma pipeline_effective_permittivity (fr epsilon_r h : R) :
  effective_permittivity
    (calculate_antenna_parameters quad dblquad j0
       self fr epsilon_r h) =
  calculate_effective_permittivity self epsilon_r h
    (patch_width
      (calculate_antenna_parameters quad dblquad j0
         self fr epsilon_r h)).
Proof.
  unfold calculate_antenna_parameters.
  destruct (calculate_conductances _ _ _ _ _ _); reflexivity.
Qed.

Lemma pipeline_patch_length (fr epsilon_r h : R) :
  patch_length
    (calculate_antenna_parameters quad dblquad j0
       self fr epsilon_r h) =
  calculate_patch_length self fr
    (effective_permittivity
      (calculate_antenna_parameters quad dblquad j0
         self fr epsilon_r h)) h
    (patch_width
      (calculate_antenna_parameters quad dblquad j0
         self fr epsilon_r h)).
Proof.
  unfold calculate_antenna_parameters.
  destruct (calculate_conductances _ _ _ _ _ _); reflexivity.
Qed.

Lemma pipeline_feed_position (fr epsilon_r h : R) :
  feed_position_50ohm
    (calculate_antenna_parameters quad dblquad j0
       self fr epsilon_r h) =
  calculate_feed_position self
    (input_impedance_edge
      (calculate_antenna_parameters quad dblquad j0
         self fr epsilon_r h))
    (patch_length
      (calculate_antenna_parameters quad dblquad j0
         self fr epsilon_r h)).
Proof.
  unfold calculate_antenna_parameters.
  destruct (calculate_conductances _ _ _ _ _ _); reflexivity.
Qed.

End Pipeline.

(** The geometry of a run at [epsilon_r = 1] and [fr = 1.5e9]: the width
    is 0.1, the effective permittivity is 1, and the length is a rational
    function of the substrate height alone. *)
Lemma unit_permittivity_geometry quad dblquad j0 (h : R) :
  let r := calculate_antenna_parameters quad dblquad j0 __init__ 1.5e9 1 h in
  patch_width r = 0.1 /\
  effective_permittivity r = 1 /\
  patch_length r =
    0.1 - 0.824 * h * ((1 + 0.3) * (0.1 / h + 0.264)
                       / ((1 - 0.258) * (0.1 / h + 0.8))).
Proof.
  intros r. subst r.
  assert (HW : patch_width
                 (calculate_antenna_parameters quad dblquad j0 __init__
                    1.5e9 1 h) = 0.1).
  { rewrite pipeline_patch_width. unfold calculate_patch_width, __init__.
    simpl c. replace (2 / (1 + 1)) with 1 by lra. rewrite sqrt_1. lra. }
  assert (HE : effective_permittivity
                 (calculate_antenna_parameters quad dblquad j0 __init__
                    1.5e9 1 h) = 1).
  { rewrite pipeline_effective_permittivity, effective_permittivity_weight.
    lra. }
  split; [exact HW | split; [exact HE | ]].
  rewrite pipeline_patch_length, HW, HE.
  unfold calculate_patch_length, __init__. simpl c.
  rewrite sqrt_1. lra.
Qed.

(** C9, the claim on a run with a negative patch length: at
    [fr = 1.5e9], [epsilon_r = 1], [h = 0.1], inside the stated domain,
    the length is negative whatever the integrators return, and the feed
    position is strictly above half of it, outside [[0, L / 2]]. *)
Lemma feed_position_negative_length :
  (0 < 1.5e9 /\ 1 <= 1 /\ 0 < 0.1) /\
  forall quad dblquad j0,
    let r := calculate_antenna_parameters quad dblquad j0 __init__
               1.5e9 1 0.1 in
    patch_length r < 0 /\
    patch_length r / 2 < feed_position_50ohm r /\
    ~ (0 <= feed_position_50ohm r <= patch_length r / 2).
Proof.
  split; [lra | ].
  intros quad dblquad j0 r.
  destruct (unit_permittivity_geometry quad dblquad j0 0.1) as (_ & _ & HL).
  fold r in HL.
  assert (Hneg : patch_length r < 0) by (rewrite HL; lra).
  assert (Hout : patch_length r / 2 < feed_position_50ohm r).
  { unfold r. rewrite pipeline_feed_position.
    apply feed_position_neg_length. exact Hneg. }
  split; [exact Hneg | split; [exact Hout | lra]].
Qed.

(** C9, amended: in every result of the pipeline whose patch length is
    not negative, the feed position lies between 0 and half the patch
    length of the same result. *)
Theorem feed_position_within_half_length
    (quad : (R -> R) -> R -> R -> R * R)
    (dblquad : (R -> R -> R) -> R -> R -> (R -> R) -> (R -> R) -> R * R)
    (j0 : R -> R) (self : MicrostripPatchAntennaCalculator)
    (fr epsilon_r h : R) :
  let r := calculate_antenna_parameters quad dblquad j0 self fr epsilon_r h in
  0 <= patch_length r ->
  0 <= feed_position_50ohm r <= patch_length r / 2.
Proof.
  intros r HL. unfold r in *.
  rewrite pipeline_feed_position.
  apply feed_position_nonneg_length. exact HL.
Qed.

Lemma feed_position_within_half_length_witness :
  let r := calculate_antenna_parameters midpoint2_quad (reporting_dblquad 2)
             series_j0 __init__ 1.5e9 1 0.01 in
  0 <= patch_length r /\
  0 <= feed_position_50ohm r <= patch_length r / 2.
Proof.
  intros r.
  assert (HL : 0 <= patch_length r).
  { destruct (unit_permittivity_geometry midpoint2_quad
                (reporting_dblquad 2) series_j0 0.01) as (_ & _ & HL).
    fold r in HL. rewrite HL. lra. }
  split; [exact HL | ].
  exact (feed_position_within_half_length midpoint2_quad
           (reporting_dblquad 2) series_j0 __init__ 1.5e9 1 0.01 HL).
Defined.

(** ** The geometry as the program evaluates it, on binary64 numbers *)

Section Binary64.
Import PrimFloat.
Local Open Scope float_scope.

(** The design point fr = 2.4 GHz, epsilon_r = 4.4, h = 1.6 mm: width
    38.0 mm, effective permittivity 4.09, length 29.4 mm. *)
Lemma binary64_design_point :
  let '(W, epsilon_ref, L) := Float64.geometry 2.4e9 4.4 1.6e-3 in
  Float64.between 0.03803 W 0.03804 = true /\
  Float64.between 4.0858 epsilon_ref 4.0859 = true /\
  Float64.between 0.02944 L 0.02945 = true.
Proof. vm_compute. repeat split. Qed.

(** At [epsilon_r = 1] the effective permittivity is the float 1 for
    both ratios h / W = 1 and h / W = 2: the real-number value, without
    rounding. *)
Lemma binary64_unit_permittivity :
  Float64.calculate_effective_permittivity 1 1 1 = 1 /\
  Float64.calculate_effective_permittivity 1 2 1 = 1.
Proof. vm_compute. split; reflexivity. Qed.

(** At fr = 1.5 GHz, epsilon_r = 1, h = 100 mm the computed patch length
    is negative, as the real-number length at that input is. *)
Lemma binary64_negative_length :
  let '(W, epsilon_ref, L) := Float64.geometry 1.5e9 1 0.1 in
  Float64.between 0.0999 W 0.1001 = true /\ epsilon_ref = 1 /\
  Float64.between (-0.00138) L (-0.00137) = true.
Proof. vm_compute. repeat split. Qed.

(** Far outside the range of use the real-number reading ends: at a
    subnormal frequency the width overflows and the factor inside the
    integrands' sine is 0 * infinity; at a subnormal height the ratio
    W / h overflows and the patch length is infinity / infinity. *)
Lemma binary64_overflow :
  Float64.calculate_patch_width 1e-320 1 = infinity /\
  is_nan (Float64.sine_scale (Float64.calculate_patch_width 1e-320 1) 1e-320)
    = true /\
  (let '(_, _, L) := Float64.geometry 1 1 1e-320 in is_nan L = true).
Proof. vm_compute. repeat split. Qed.

End Binary64.

(** ** NaN on binary64 numbers *)

Section Binary64NaN.
Import PrimFloat SpecFloat FloatOps FloatAxioms.
Local Open Scope float_scope.

Lemma SFcompare_refl (f : spec_float) :
  f <> S754_nan -> SFcompare f f = Some Eq.
Proof.
  destruct f as [s | s | | s m e]; intros H; simpl.
  - reflexivity.
  - destruct s; reflexivity.
  - contradiction.
  - rewrite Z.compare_refl.
    change (Pos.compare_cont Eq m m) with (Pos.compare m m).
    rewrite Pos.compare_refl. destruct s; reflexivity.
Qed.

Lemma is_nan_spec (x : float) : is_nan x = true <-> Prim2SF x = S754_nan.
Proof.
  unfold is_nan. rewrite eqb_spec. unfold SFeqb. split.
  - intros H. destruct (Prim2SF x) eqn:E; try reflexivity;
      rewrite SFcompare_refl in H by discriminate; discriminate.
  - intros ->. reflexivity.
Qed.

Lemma is_nan_false_spec (x : float) :
  is_nan x = false <-> Prim2SF x <> S754_nan.
Proof.
  rewrite <- is_nan_spec.
  destruct (is_nan x); split; intros H; try discriminate; try reflexivity.
  contradiction H. reflexivity.
Qed.

Lemma mul_nan_l (x y : float) : is_nan x = true -> is_nan (x * y) = true.
Proof.
  rewrite !is_nan_spec, mul_spec. intros ->. reflexivity.
Qed.

Lemma mul_nan_r (x y : float) : is_nan y = true -> is_nan (x * y) = true.
Proof.
  rewrite !is_nan_spec, mul_spec. intros ->.
  unfold SF64mul, SFmul. destruct (Prim2SF x); reflexivity.
Qed.

Lemma div_nan_l (x y : float) : is_nan x = true -> is_nan (x / y) = true.
Proof.
  rewrite !is_nan_spec, div_spec. intros ->. reflexivity.
Qed.

Lemma ltb_nan_l (x y : float) : is_nan x = true -> (x <? y) = false.
Proof.
  rewrite is_nan_spec, ltb_spec. intros ->. reflexivity.
Qed.

Lemma leb_nan_r (x y : float) : is_nan y = true -> (x <=? y) = false.
Proof.
  rewrite is_nan_spec, leb_spec. intros ->.
  unfold SFleb, SFcompare. destruct (Prim2SF x); reflexivity.
Qed.

Lemma SFcompare_antisym (a b : spec_float) (cmp : comparison) :
  SFcompare a b = Some cmp -> SFcompare b a = Some (CompOpp cmp).
Proof.
  destruct a as [sa | sa | | sa ma ea], b as [sb | sb | | sb mb eb];
    simpl; try discriminate;
    try (destruct sa; intros H; inversion H; reflexivity);
    try (destruct sb; intros H; inversion H; reflexivity);
    try (destruct sa, sb; intros H; inversion H; reflexivity).
  intros H. inversion H as [Hc]. clear H. f_equal.
  rewrite (Z.compare_antisym ea eb).
  change (Pos.compare_cont Eq mb ma) with (Pos.compare mb ma).
  change (Pos.compare_cont Eq ma mb) with (Pos.compare ma mb).
  rewrite (Pos.compare_antisym ma mb).
  destruct sa, sb; try reflexivity;
    destruct (Z.compare ea eb); simpl; try reflexivity;
    destruct (Pos.compare ma mb); reflexivity.
Qed.

(** On numbers the order is total: not [a < b] gives [b <= a]. *)
Lemma leb_of_not_ltb (a b : float) :
  is_nan a = false -> is_nan b = false ->
  (a <? b) = false -> (b <=? a) = true.
Proof.
  rewrite !is_nan_false_spec, ltb_spec, leb_spec. unfold SFltb, SFleb.
  intros Ha Hb H.
  destruct (SFcompare (Prim2SF a) (Prim2SF b)) as [cmp | ] eqn:E.
  - rewrite (SFcompare_antisym _ _ _ E).
    destruct cmp; try reflexivity; discriminate.
  - exfalso.
    destruct (Prim2SF a), (Prim2SF b); simpl in E; try discriminate;
      try (contradiction Ha; reflexivity);
      try (contradiction Hb; reflexivity).
Qed.

Lemma floor_positive (a : float) : (1e-12 <=? a) = true -> (0 <? a) = true.
Proof.
  rewrite leb_spec, ltb_spec.
  replace (Prim2SF 1e-12) with (S754_finite false 4951760157141521 (-92))
    by (vm_compute; reflexivity).
  replace (Prim2SF 0) with (S754_zero false) by (vm_compute; reflexivity).
  unfold SFleb, SFltb.
  destruct (Prim2SF a) as [s | s | | s m e]; simpl; try discriminate;
    destruct s; try discriminate; reflexivity.
Qed.

(** The clamp [max(v, 1e-12)]: on a number it reaches the floor, a NaN
    passes through it. *)
Lemma clamp_number (v : float) :
  is_nan v = false ->
  (1e-12 <=? Float64.max v 1e-12) = true /\
  (0 <? Float64.max v 1e-12) = true.
Proof.
  intros Hv.
  assert (H : (1e-12 <=? Float64.max v 1e-12) = true).
  { unfold Float64.max. destruct (v <? 1e-12) eqn:E.
    - vm_compute. reflexivity.
    - apply leb_of_not_ltb; [exact Hv | vm_compute; reflexivity | exact E]. }
  split; [exact H | apply floor_positive, H].
Qed.

Lemma clamp_nan (v : float) :
  is_nan v = true ->
  Float64.max v 1e-12 = v /\ (1e-12 <=? Float64.max v 1e-12) = false.
Proof.
  intros Hv. unfold Float64.max.
  rewrite (ltb_nan_l v 1e-12 Hv). split; [reflexivity | ].
  apply leb_nan_r, Hv.
Qed.

Variable np_sin : float -> float.
Variable np_cos : float -> float.
Variable power : float -> float -> float.
Variable j0 : float -> float.
Variable quad : (float -> float) -> float -> float -> float * float.

(** The two integration results after the division by [120 PI^2]. *)
Lemma conductances_returned (W L fr : float) :
  (fr =? 0) = false -> (Float64.c / fr =? 0) = false ->
  let k0 := 2 * Float64.pi / (Float64.c / fr) in
  Float64.calculate_conductances np_sin np_cos power j0 quad W L fr =
  Some
    (Float64.max
       (fst (quad (Float64.integrand_G1 np_sin np_cos power k0 W)
               0 Float64.pi)
        / (120 * power Float64.pi 2)) 1e-12,
     Float64.max
       (fst (quad (Float64.integrand_G12 np_sin np_cos power j0 k0 W L)
               0 Float64.pi)
        / (120 * power Float64.pi 2)) 1e-12).
Proof.
  intros Hfr Hl k0. subst k0. unfold Float64.calculate_conductances.
  rewrite Hfr, Hl.
  destruct (quad (Float64.integrand_G1 _ _ _ _ W) 0 Float64.pi).
  destruct (quad (Float64.integrand_G12 _ _ _ _ _ W L) 0 Float64.pi).
  reflexivity.
Qed.

(** A NaN patch length makes the integrand of the mutual conductance
    NaN at every angle, when [j0] maps NaN to NaN. *)
Lemma integrand_G12_nan (k0 W L theta : float) :
  (forall x, is_nan x = true -> is_nan (j0 x) = true) ->
  is_nan L = true ->
  is_nan (Float64.integrand_G12 np_sin np_cos power j0 k0 W L theta) = true.
Proof.
  intros Hj HL. unfold Float64.integrand_G12.
  apply mul_nan_l, mul_nan_r, Hj, mul_nan_l, mul_nan_r, HL.
Qed.



End Binary64NaN.

(** ** The conductances on binary64 numbers *)

Section Binary64Conductances.
Import PrimFloat.
Local Open Scope float_scope.

(** C4, the claim on a NaN integration result: a height of 0 entered at
    2.4 GHz and permittivity 4.4 makes the patch length NaN (the ratio
    [W / h] is infinite); with a Bessel function that maps NaN to NaN
    and an integrator that returns NaN for an integrand that is NaN
    everywhere, [calculate_conductances] returns at that width and
    length a mutual conductance that is NaN and not at least [1e-12]. *)
Lemma conductances_nan_passes_floor :
  let W := fst (fst (Float64.geometry 2.4e9 4.4 0)) in
  let L := snd (Float64.geometry 2.4e9 4.4 0) in
  (Float64.between 0.03803 W 0.03804 = true /\ is_nan L = true) /\
  forall (np_sin np_cos : float -> float) (power : float -> float -> float)
         (j0 : float -> float)
         (quad : (float -> float) -> float -> float -> float * float),
    (forall x, is_nan x = true -> is_nan (j0 x) = true) ->
    (forall f a b, (forall x, is_nan (f x) = true) ->
                   is_nan (fst (quad f a b)) = true) ->
    exists G1 G12,
      Float64.calculate_conductances np_sin np_cos power j0 quad W L 2.4e9
        = Some (G1, G12) /\
      is_nan G12 = true /\ (1e-12 <=? G12) = false.
Proof.
  intros W L.
  assert (HL : is_nan L = true) by (vm_compute; reflexivity).
  split; [split; [vm_compute; reflexivity | exact HL] | ].
  intros np_sin np_cos power j0 quad Hj Hq.
  eexists. eexists. split.
  - apply conductances_returned; vm_compute; reflexivity.
  - set (v := fst (quad _ 0 Float64.pi) / (120 * power Float64.pi 2)).
    assert (Hv : is_nan v = true).
    { unfold v. apply div_nan_l, Hq. intros x.
      apply integrand_G12_nan; assumption. }
    destruct (clamp_nan v Hv) as [E Hle].
    split; [rewrite E; exact Hv | exact Hle].
Qed.

(** C4, amended: for [fr] not 0 (and a wavelength [c / fr] not 0, so that
    nothing raises) the call returns a pair; each component is the
    integration result divided by [120 PI^2], replaced by [1e-12] when
    it is below [1e-12]; when that quotient is a number (not NaN) the
    component is at least [1e-12] and strictly positive; when it is NaN
    the component is NaN. *)
Theorem conductances_floor
    (np_sin np_cos : float -> float) (power : float -> float -> float)
    (j0 : float -> float)
    (quad : (float -> float) -> float -> float -> float * float)
    (W L fr : float) :
  (fr =? 0) = false -> (Float64.c / fr =? 0) = false ->
  let k0 := 2 * Float64.pi / (Float64.c / fr) in
  let v1 :=
    fst (quad (Float64.integrand_G1 np_sin np_cos power k0 W) 0 Float64.pi)
    / (120 * power Float64.pi 2) in
  let v12 :=
    fst (quad (Float64.integrand_G12 np_sin np_cos power j0 k0 W L)
           0 Float64.pi)
    / (120 * power Float64.pi 2) in
  exists G1 G12,
    Float64.calculate_conductances np_sin np_cos power j0 quad W L fr
      = Some (G1, G12) /\
    G1 = (if v1 <? 1e-12 then 1e-12 else v1) /\
    G12 = (if v12 <? 1e-12 then 1e-12 else v12) /\
    (is_nan v1 = false -> (1e-12 <=? G1) = true /\ (0 <? G1) = true) /\
    (is_nan v12 = false -> (1e-12 <=? G12) = true /\ (0 <? G12) = true) /\
    (is_nan v1 = true -> is_nan G1 = true) /\
    (is_nan v12 = true -> is_nan G12 = true).
Proof.
  intros Hfr Hl k0 v1 v12.
  exists (Float64.max v1 1e-12), (Float64.max v12 1e-12).
  split; [apply conductances_returned; assumption | ].
  split; [reflexivity | split; [reflexivity | ]].
  split; [apply clamp_number | ].
  split; [apply clamp_number | ].
  split; intros H; rewrite (proj1 (clamp_nan _ H)); exact H.
Qed.

Lemma conductances_floor_witness :
  let run :=
    Float64.calculate_conductances Float64.series_sin Float64.series_cos
      Float64.product_power Float64.series_j0 Float64.midpoint2_quad
      0.038 0.029 2.4e9 in
  ((2.4e9 =? 0) = false /\ (Float64.c / 2.4e9 =? 0) = false) /\
  exists G1 G12,
    run = Some (G1, G12) /\
    (1e-12 <=? G1) = true /\ (1e-12 <=? G12) = true.
Proof.
  intros run.
  split; [split; vm_compute; reflexivity | ].
  destruct (conductances_floor Float64.series_sin Float64.series_cos
              Float64.product_power Float64.series_j0 Float64.midpoint2_quad
              0.038 0.029 2.4e9)
    as (G1 & G12 & Hrun & _ & _ & H1 & H12 & _);
    [vm_compute; reflexivity | vm_compute; reflexivity | ].
  exists G1, G12. split; [exact Hrun | ].
  split.
  - apply H1. vm_compute. reflexivity.
  - apply H12. vm_compute. reflexivity.
Defined.


End Binary64Conductances.

(** ** Products that decide the integrands

    The integrands see the wavenumber only through the products
    [k0 * W], [k0 * L] and [k0 * Leff]. *)

Lemma integrand_G1_product (k0 W k0' W' : R) :
  k0' * W' = k0 * W -> integrand_G1 k0' W' = integrand_G1 k0 W.
Proof.
  intros H. unfold integrand_G1. rewrite H. reflexivity.
Qed.

Lemma integrand_G12_product (j0 : R -> R) (k0 W L k0' W' L' : R) :
  k0' * W' = k0 * W -> k0' * L' = k0 * L ->
  integrand_G12 j0 k0' W' L' = integrand_G12 j0 k0 W L.
Proof.
  intros HW HL. unfold integrand_G12. rewrite HW, HL. reflexivity.
Qed.

Lemma integrand_I1_product
    (self : MicrostripPatchAntennaCalculator)
    (k0 W fr k0' W' fr' epsilon_ref : R) :
  k0' * W' = k0 * W ->
  k0' * (c self / (2 * fr' * sqrt epsilon_ref)) =
  k0 * (c self / (2 * fr * sqrt epsilon_ref)) ->
  integrand_I1 self k0' W' fr' epsilon_ref =
  integrand_I1 self k0 W fr epsilon_ref.
Proof.
  intros HW HL. unfold integrand_I1. rewrite HW, HL. reflexivity.
Qed.

(** The wavenumber [2 PI / (c / fr)] is [2 PI fr / c]. *)
Lemma wavenumber_linear (self : MicrostripPatchAntennaCalculator) (fr : R) :
  2 * PI / (c self / fr) = 2 * PI * fr * / c self.
Proof.
  unfold Rdiv. rewrite Rinv_mult, Rinv_inv. ring.
Qed.

Lemma wavenumber_scaling
    (self : MicrostripPatchAntennaCalculator) (a fr x : R) :
  a <> 0 ->
  2 * PI / (c self / (a * fr)) * (x / a) = 2 * PI / (c self / fr) * x.
Proof.
  intros Ha. rewrite !wavenumber_linear. unfold Rdiv.
  transitivity (2 * PI * fr * / c self * x * (a * / a)); [ring | ].
  rewrite Rinv_r by exact Ha. ring.
Qed.

(** ** How the stages scale with frequency *)

Section Scaling.

Variable quad : (R -> R) -> R -> R -> R * R.
Variable dblquad :
  (R -> R -> R) -> R -> R -> (R -> R) -> (R -> R) -> R * R.
Variable j0 : R -> R.
Variable self : MicrostripPatchAntennaCalculator.
Variable a : R.
Hypothesis a_nonzero : a <> 0.

Lemma ratio_scaling (x y : R) : (x / a) / (y / a) = x / y.
Proof.
  unfold Rdiv. rewrite Rinv_mult, Rinv_inv.
  transitivity (x * / y * (a * / a)); [ring | ].
  rewrite Rinv_r by exact a_nonzero. ring.
Qed.

Lemma patch_width_scaling (fr epsilon_r : R) :
  calculate_patch_width self (a * fr) epsilon_r =
  calculate_patch_width self fr epsilon_r / a.
Proof.
  unfold calculate_patch_width, Rdiv.
  replace (2 * (a * fr)) with (a * (2 * fr)) by ring.
  rewrite Rinv_mult. ring.
Qed.

Lemma effective_permittivity_scaling (epsilon_r h W : R) :
  calculate_effective_permittivity self epsilon_r (h / a) (W / a) =
  calculate_effective_permittivity self epsilon_r h W.
Proof.
  unfold calculate_effective_permittivity.
  rewrite ratio_scaling. reflexivity.
Qed.

Lemma patch_length_scaling (fr epsilon_ref h W : R) :
  calculate_patch_length self (a * fr) epsilon_ref (h / a) (W / a) =
  calculate_patch_length self fr epsilon_ref h W / a.
Proof.
  unfold calculate_patch_length.
  rewrite ratio_scaling.
  replace (2 * (a * fr) * sqrt epsilon_ref)
    with (a * (2 * fr * sqrt epsilon_ref)) by ring.
  unfold Rdiv. rewrite (Rinv_mult a). ring.
Qed.

Lemma conductances_scaling (W L fr : R) :
  calculate_conductances quad j0 self (W / a) (L / a) (a * fr) =
  calculate_conductances quad j0 self W L fr.
Proof.
  unfold calculate_conductances.
  rewrite (integrand_G1_product (2 * PI / (c self / fr)) W)
    by apply wavenumber_scaling, a_nonzero.
  rewrite (integrand_G12_product j0 (2 * PI / (c self / fr)) W L)
    by apply wavenumber_scaling, a_nonzero.
  reflexivity.
Qed.

Lemma feed_position_scaling (R_in_edge L : R) :
  calculate_feed_position self R_in_edge (L / a) =
  calculate_feed_position self R_in_edge L / a.
Proof.
  unfold calculate_feed_position.
  destruct (Rlt_dec R_in_edge 50); unfold Rdiv; ring.
Qed.

Lemma directivity_scaling (W L L' fr epsilon_ref : R) :
  calculate_directivity dblquad self (W / a) L' (a * fr) epsilon_ref =
  calculate_directivity dblquad self W L fr epsilon_ref.
Proof.
  unfold calculate_directivity.
  rewrite (integrand_I1_product self (2 * PI / (c self / fr)) W fr).
  - destruct (dblquad _ 0 PI _ _) as [I1 err].
    destruct (Rlt_dec 0 I1); [ | reflexivity].
    replace (2 * PI * (W / a) / (c self / (a * fr)))
      with (2 * PI * W / (c self / fr)); [reflexivity | ].
    unfold Rdiv. rewrite !Rinv_mult, !Rinv_inv.
    transitivity (2 * PI * W * / c self * fr * (a * / a)); [ | ring].
    rewrite Rinv_r by exact a_nonzero. ring.
  - apply wavenumber_scaling, a_nonzero.
  - replace (c self / (2 * (a * fr) * sqrt epsilon_ref))
      with (c self / (2 * fr * sqrt epsilon_ref) / a).
    + apply wavenumber_scaling, a_nonzero.
    + replace (2 * (a * fr) * sqrt epsilon_ref)
        with (a * (2 * fr * sqrt epsilon_ref)) by ring.
      unfold Rdiv. rewrite (Rinv_mult a). ring.
Qed.

End Scaling.

(** The result of the pipeline, field by field, with the pair of
    conductances read through its projections. *)
Lemma pipeline_record
    (quad : (R -> R) -> R -> R -> R * R)
    (dblquad : (R -> R -> R) -> R -> R -> (R -> R) -> (R -> R) -> R * R)
    (j0 : R -> R) (self : MicrostripPatchAntennaCalculator)
    (fr epsilon_r h : R) :
  let W := calculate_patch_width self fr epsilon_r in
  let epsilon_ref := calculate_effective_permittivity self epsilon_r h W in
  let L := calculate_patch_length self fr epsilon_ref h W in
  let G := calculate_conductances quad j0 self W L fr in
  let R_in_edge := calculate_input_impedance_edge self (fst G) (snd G) in
  calculate_antenna_parameters quad dblquad j0 self fr epsilon_r h =
  {| resonant_frequency := fr;
     substrate_permittivity := epsilon_r;
     substrate_height := h;
     patch_width := W;
     patch_length := L;
     effective_permittivity := epsilon_ref;
     single_slot_conductance := fst G;
     mutual_conductance := snd G;
     input_impedance_edge := R_in_edge;
     feed_position_50ohm := calculate_feed_position self R_in_edge L;
     directivity := calculate_directivity dblquad self W L fr epsilon_ref |}.
Proof.
  intros W epsilon_ref L G R_in_edge.
  unfold calculate_antenna_parameters.
  fold W. fold epsilon_ref. fold L. fold G.
  subst R_in_edge. destruct G as [G1 G12]. reflexivity.
Qed.

(** X1: similarity of designs.  Multiplying the frequency by [a > 0] and
    dividing the substrate height by [a] divides the three lengths of the
    result (width, length, feed position) by [a] and leaves the
    effective permittivity, both conductances, the edge impedance and the
    directivity unchanged. *)
Theorem pipeline_scaling
    (quad : (R -> R) -> R -> R -> R * R)
    (dblquad : (R -> R -> R) -> R -> R -> (R -> R) -> (R -> R) -> R * R)
    (j0 : R -> R) (self : MicrostripPatchAntennaCalculator)
    (a fr epsilon_r h : R) :
  0 < a -> 0 < fr -> 0 < h ->
  let r := calculate_antenna_parameters quad dblquad j0 self
             fr epsilon_r h in
  let r' := calculate_antenna_parameters quad dblquad j0 self
              (a * fr) epsilon_r (h / a) in
  patch_width r' = patch_width r / a /\
  patch_length r' = patch_length r / a /\
  feed_position_50ohm r' = feed_position_50ohm r / a /\
  effective_permittivity r' = effective_permittivity r /\
  single_slot_conductance r' = single_slot_conductance r /\
  mutual_conductance r' = mutual_conductance r /\
  input_impedance_edge r' = input_impedance_edge r /\
  directivity r' = directivity r.
Proof.
  intros Ha _ _ r r'. subst r r'.
  assert (Hnz : a <> 0) by lra.
  rewrite !pipeline_record. cbn [patch_width patch_length feed_position_50ohm
    effective_permittivity single_slot_conductance mutual_conductance
    input_impedance_edge directivity].
  rewrite !patch_width_scaling, !(effective_permittivity_scaling self a Hnz),
    !(patch_length_scaling self a Hnz),
    !(conductances_scaling quad j0 self a Hnz),
    (feed_position_scaling self a),
    (directivity_scaling dblquad self a Hnz _
       (calculate_patch_length self fr
          (calculate_effective_permittivity self epsilon_r h
             (calculate_patch_width self fr epsilon_r)) h
          (calculate_patch_width self fr epsilon_r))).
  repeat split; reflexivity.
Qed.

Lemma pipeline_scaling_witness :
  let r := calculate_antenna_parameters midpoint2_quad (reporting_dblquad 2)
             series_j0 __init__ 2.4e9 4.4 1.6e-3 in
  let r' := calculate_antenna_parameters midpoint2_quad (reporting_dblquad 2)
              series_j0 __init__ (2 * 2.4e9) 4.4 (1.6e-3 / 2) in
  (0 < 2 /\ 0 < 2.4e9 /\ 0 < 1.6e-3) /\
  patch_length r' = patch_length r / 2 /\ directivity r' = directivity r.
Proof.
  intros r r'. split; [lra | ].
  destruct (pipeline_scaling midpoint2_quad (reporting_dblquad 2)
              series_j0 __init__ 2 2.4e9 4.4 1.6e-3)
    as (_ & HL & _ & _ & _ & _ & _ & HD); try lra.
  split; [exact HL | exact HD].
Defined.

(** ** What the pipeline's electrical results depend on *)

(** In the pipeline the product [k0 * W] is [PI sqrt (2 / (epsilon_r + 1))]:
    the frequency and the speed of light cancel. *)
Lemma pipeline_wavenumber_width
    (self : MicrostripPatchAntennaCalculator) (fr epsilon_r : R) :
  c self <> 0 -> fr <> 0 ->
  2 * PI / (c self / fr) * calculate_patch_width self fr epsilon_r =
  PI * sqrt (2 / (epsilon_r + 1)).
Proof.
  intros Hc Hfr. rewrite wavenumber_linear.
  unfold calculate_patch_width. field. split; assumption.
Qed.

(** X2: for a nonzero frequency (and a nonzero speed of light), the
    single-slot conductance of a pipeline result is a function of the
    substrate permittivity alone: it is the clamped integral of the
    integrand with [k0 * W = PI sqrt (2 / (epsilon_r + 1))], whatever the
    frequency and the substrate height. *)
Theorem pipeline_single_slot_conductance
    (quad : (R -> R) -> R -> R -> R * R)
    (dblquad : (R -> R -> R) -> R -> R -> (R -> R) -> (R -> R) -> R * R)
    (j0 : R -> R) (self : MicrostripPatchAntennaCalculator)
    (fr epsilon_r h : R) :
  c self <> 0 -> fr <> 0 ->
  single_slot_conductance
    (calculate_antenna_parameters quad dblquad j0 self fr epsilon_r h) =
  Py.max (fst (quad (integrand_G1 PI (sqrt (2 / (epsilon_r + 1)))) 0 PI)
          / (120 * PI ^ 2)) 1e-12.
Proof.
  intros Hc Hfr. rewrite pipeline_record.
  cbn [single_slot_conductance]. rewrite conductances_fst.
  rewrite (integrand_G1_product PI (sqrt (2 / (epsilon_r + 1))));
    [reflexivity | ].
  apply pipeline_wavenumber_width; assumption.
Qed.

Lemma pipeline_single_slot_conductance_witness :
  (c __init__ <> 0 /\ 2.4e9 <> 0 /\ 5e9 <> 0) /\
  single_slot_conductance
    (calculate_antenna_parameters midpoint2_quad (reporting_dblquad 2)
       series_j0 __init__ 2.4e9 4.4 1.6e-3) =
  single_slot_conductance
    (calculate_antenna_parameters midpoint2_quad (reporting_dblquad 2)
       series_j0 __init__ 5e9 4.4 1e-3).
Proof.
  assert (Hc : c __init__ <> 0) by (simpl; lra).
  split; [repeat split; try exact Hc; lra | ].
  rewrite (pipeline_single_slot_conductance midpoint2_quad
             (reporting_dblquad 2) series_j0 __init__ 2.4e9 4.4 1.6e-3 Hc)
    by lra.
  rewrite (pipeline_single_slot_conductance midpoint2_quad
             (reporting_dblquad 2) series_j0 __init__ 5e9 4.4 1e-3 Hc)
    by lra.
  reflexivity.
Defined.

(** X3: when the double integral is positive, the directivity of a
    pipeline result is
    [10 log10 (2 PI^3 / ((epsilon_r + 1) I1))]: the factor
    [(2 PI W / lambda_0)^2] in front of [PI / I1] is
    [PI^2 * 2 / (epsilon_r + 1)], free of the frequency. *)
Theorem pipeline_directivity_prefactor
    (quad : (R -> R) -> R -> R -> R * R)
    (dblquad : (R -> R -> R) -> R -> R -> (R -> R) -> (R -> R) -> R * R)
    (j0 : R -> R) (self : MicrostripPatchAntennaCalculator)
    (fr epsilon_r h : R) :
  c self <> 0 -> fr <> 0 -> -1 < epsilon_r ->
  let r := calculate_antenna_parameters quad dblquad j0 self fr epsilon_r h in
  let I1 := directivity_integral dblquad self (patch_width r) fr
              (effective_permittivity r) in
  0 < I1 ->
  directivity r = 10 * Py.log10 (2 * PI ^ 3 / ((epsilon_r + 1) * I1)).
Proof.
  intros Hc Hfr He r I1 HI. subst r I1.
  rewrite pipeline_record in *.
  cbn [directivity patch_width effective_permittivity] in *.
  unfold directivity_integral in *. unfold calculate_directivity.
  destruct (dblquad _ 0 PI _ _) as [I1 err]. simpl fst in *.
  destruct (Rlt_dec 0 I1) as [_ | Hn]; [ | contradiction].
  f_equal. f_equal.
  replace (2 * PI * calculate_patch_width self fr epsilon_r / (c self / fr))
    with (PI * sqrt (2 / (epsilon_r + 1))).
  - rewrite Rpow_mult_distr.
    replace (sqrt (2 / (epsilon_r + 1)) ^ 2) with (2 / (epsilon_r + 1)).
    + field. split; lra.
    + simpl pow. rewrite Rmult_1_r, sqrt_sqrt; [reflexivity | ].
      apply Rlt_le, Rdiv_lt_0_compat; lra.
  - rewrite <- (pipeline_wavenumber_width self fr epsilon_r Hc Hfr).
    unfold Rdiv. ring.
Qed.

Lemma pipeline_directivity_prefactor_witness :
  (c __init__ <> 0 /\ 2.4e9 <> 0 /\ -1 < 4.4 /\ 0 < 2) /\
  directivity
    (calculate_antenna_parameters midpoint2_quad (reporting_dblquad 2)
       series_j0 __init__ 2.4e9 4.4 1.6e-3) =
  10 * Py.log10 (2 * PI ^ 3 / ((4.4 + 1) * 2)).
Proof.
  assert (Hc : c __init__ <> 0) by (simpl; lra).
  split; [repeat split; try exact Hc; lra | ].
  apply (pipeline_directivity_prefactor midpoint2_quad (reporting_dblquad 2)
           series_j0 __init__ 2.4e9 4.4 1.6e-3 Hc); try lra.
  unfold directivity_integral, reporting_dblquad. simpl. lra.
Defined.

(** ** Invariants of a pipeline result *)




(** ** The feed position as the 50 Ohm point *)

Lemma acos_antitone (x y : R) :
  -1 <= x -> x <= y -> y <= 1 -> acos y <= acos x.
Proof.
  intros Hx Hxy Hy.
  destruct (Rle_dec (acos y) (acos x)) as [Hle | Hgt]; [exact Hle | exfalso].
  pose proof (acos_bound x) as [Hx0 Hx1].
  pose proof (acos_bound y) as [Hy0 Hy1].
  assert (Hcos : cos (acos y) < cos (acos x))
    by (apply cos_decreasing_1; lra).
  rewrite !cos_acos in Hcos by lra. lra.
Qed.

(** X5: in the inset branch the position returned is where the
    impedance profile [R_in_edge * cos (PI y / L) ^ 2] of the patch takes
    the value 50: for [R_in_edge >= 50] and [L <> 0],
    [R_in_edge * cos (PI * y0 / L) ^ 2 = 50]. *)
Theorem feed_position_matches_50_ohm
    (self : MicrostripPatchAntennaCalculator) (R_in_edge L : R) :
  50 <= R_in_edge -> L <> 0 ->
  let y0 := calculate_feed_position self R_in_edge L in
  R_in_edge * cos (PI * y0 / L) ^ 2 = 50.
Proof.
  intros HR HL y0. subst y0.
  rewrite feed_position_inset by exact HR.
  pose proof PI_neq0 as HPI.
  pose proof (inset_ratio_bounds R_in_edge HR) as [Hs0 Hs1].
  replace (PI * (L / PI * acos (sqrt (50 / R_in_edge))) / L)
    with (acos (sqrt (50 / R_in_edge))) by (field; split; assumption).
  rewrite cos_acos by lra.
  simpl pow. rewrite Rmult_1_r, sqrt_sqrt.
  - field. lra.
  - apply Rlt_le, Rdiv_lt_0_compat; lra.
Qed.

Lemma feed_position_matches_50_ohm_witness :
  (50 <= 200 /\ 0.029 <> 0) /\
  200 * cos (PI * calculate_feed_position __init__ 200 0.029 / 0.029) ^ 2
    = 50.
Proof.
  split; [split; lra | ].
  apply (feed_position_matches_50_ohm __init__ 200 0.029); lra.
Defined.

(** X6: for a patch of non-negative length the feed position does not
    decrease when the edge impedance grows, and for a positive length and
    an edge impedance above 50 it is strictly inside the first half of
    the patch. *)
Theorem feed_position_monotone
    (self : MicrostripPatchAntennaCalculator) (R1 R2 L : R) :
  (0 <= L -> R1 <= R2 ->
   calculate_feed_position self R1 L <= calculate_feed_position self R2 L) /\
  (0 < L -> 50 < R1 ->
   0 < calculate_feed_position self R1 L < L / 2).
Proof.
  split.
  - intros HL H12.
    destruct (Rlt_dec R1 50) as [Hlt | Hge].
    + rewrite (feed_position_edge self R1) by exact Hlt.
      apply feed_position_nonneg_length, HL.
    + assert (H1 : 50 <= R1) by lra. assert (H2 : 50 <= R2) by lra.
      rewrite !feed_position_fraction by assumption.
      apply Rmult_le_compat_l; [exact HL | ].
      unfold Rdiv. apply Rmult_le_compat_r.
      * apply Rlt_le, Rinv_0_lt_compat, PI_RGT_0.
      * pose proof (inset_ratio_bounds R1 H1) as [Ha Hb].
        pose proof (inset_ratio_bounds R2 H2) as [Hc Hd].
        apply acos_antitone; try lra.
        apply sqrt_le_1_alt.
        unfold Rdiv. apply Rmult_le_compat_l; [lra | ].
        apply Rinv_le_contravar; lra.
  - intros HL HR.
    assert (H1 : 50 <= R1) by lra.
    rewrite feed_position_fraction by exact H1.
    pose proof (inset_fraction_bounds R1 H1) as [Hf0 Hf1].
    assert (Hpos : 0 < acos (sqrt (50 / R1))).
    { apply acos_bound_lt.
      pose proof (inset_ratio_bounds R1 H1) as [Ha Hb].
      split; [lra | ].
      rewrite <- sqrt_1. apply sqrt_lt_1; try lra.
      - apply Rlt_le, Rdiv_lt_0_compat; lra.
      - apply (Rmult_lt_reg_r R1); [lra | ].
        unfold Rdiv. rewrite Rmult_assoc, Rinv_l by lra. lra. }
    assert (Hfp : 0 < acos (sqrt (50 / R1)) / PI)
      by (apply Rdiv_lt_0_compat; [exact Hpos | apply PI_RGT_0]).
    nra.
Qed.

Lemma feed_position_monotone_witness :
  (0 <= 0.029 /\ 100 <= 200 /\ 0 < 0.029 /\ 50 < 100) /\
  calculate_feed_position __init__ 100 0.029
    <= calculate_feed_position __init__ 200 0.029 /\
  0 < calculate_feed_position __init__ 100 0.029 < 0.029 / 2.
Proof.
  split; [lra | ].
  destruct (feed_position_monotone __init__ 100 200 0.029) as [Hm Hi].
  split; [apply Hm; lra | apply Hi; lra].
Defined.

(** X7: the feed position in terms of the conductances.  For positive
    conductances the feed is at the patch edge exactly when their sum
    exceeds 0.01 S (edge impedance below 50 Ohm); otherwise it is
    [(L / PI) acos (sqrt (100 (G1 + G12)))]. *)
Theorem feed_position_of_conductances
    (self : MicrostripPatchAntennaCalculator) (G1 G12 L : R) :
  0 < G1 -> 0 < G12 ->
  let y0 := calculate_feed_position self
              (calculate_input_impedance_edge self G1 G12) L in
  (0.01 < G1 + G12 -> y0 = 0) /\
  (G1 + G12 <= 0.01 -> y0 = (L / PI) * acos (sqrt (100 * (G1 + G12)))).
Proof.
  intros H1 H2 y0. subst y0. unfold calculate_input_impedance_edge.
  assert (Hp : 0 < 2 * (G1 + G12)) by lra.
  split; intros H.
  - apply feed_position_edge.
    apply (Rmult_lt_reg_r (2 * (G1 + G12))); [exact Hp | ].
    unfold Rdiv. rewrite Rmult_assoc, Rinv_l by lra. lra.
  - rewrite feed_position_inset.
    + replace (50 / (1 / (2 * (G1 + G12)))) with (100 * (G1 + G12))
        by (field; lra).
      reflexivity.
    + apply (Rmult_le_reg_r (2 * (G1 + G12))); [exact Hp | ].
      unfold Rdiv. rewrite Rmult_assoc, Rinv_l by lra. lra.
Qed.

Lemma feed_position_of_conductances_witness :
  (0 < 0.004 /\ 0 < 0.002 /\ 0 < 0.02 /\ 0.01 < 0.02 + 0.002
   /\ 0.004 + 0.002 <= 0.01) /\
  calculate_feed_position __init__
    (calculate_input_impedance_edge __init__ 0.02 0.002) 0.029 = 0 /\
  calculate_feed_position __init__
    (calculate_input_impedance_edge __init__ 0.004 0.002) 0.029 =
    (0.029 / PI) * acos (sqrt (100 * (0.004 + 0.002))).
Proof.
  split; [lra | ]. split.
  - apply (proj1 (feed_position_of_conductances __init__ 0.02 0.002 0.029
                    ltac:(lra) ltac:(lra))). lra.
  - apply (proj2 (feed_position_of_conductances __init__ 0.004 0.002 0.029
                    ltac:(lra) ltac:(lra))). lra.
Defined.

(** ** Monotonicity of the geometry *)

(** X8: on its domain the patch length is strictly below the unfringed
    length [c / (2 fr sqrt epsilon_ref)] that [calculate_directivity]
    uses as [Leff]: the fringing term subtracted is positive. *)
Theorem patch_length_below_unfringed
    (self : MicrostripPatchAntennaCalculator) (fr epsilon_ref h W : R) :
  0.258 < epsilon_ref -> 0 < h -> 0 < W ->
  calculate_patch_length self fr epsilon_ref h W <
  c self / (2 * fr * sqrt epsilon_ref).
Proof.
  intros He Hh HW. unfold calculate_patch_length.
  assert (Hq : 0 < W / h) by (apply Rdiv_lt_0_compat; assumption).
  assert (Hn : 0 < (epsilon_ref + 0.3) * (W / h + 0.264))
    by (apply Rmult_lt_0_compat; lra).
  assert (Hd : 0 < (epsilon_ref - 0.258) * (W / h + 0.8))
    by (apply Rmult_lt_0_compat; lra).
  assert (Hr : 0 < (epsilon_ref + 0.3) * (W / h + 0.264)
                   / ((epsilon_ref - 0.258) * (W / h + 0.8)))
    by (apply Rdiv_lt_0_compat; assumption).
  assert (Ht : 0 < 0.824 * h * ((epsilon_ref + 0.3) * (W / h + 0.264)
                   / ((epsilon_ref - 0.258) * (W / h + 0.8)))).
  { apply Rmult_lt_0_compat; [ | exact Hr]. apply Rmult_lt_0_compat; lra. }
  lra.
Qed.

Lemma patch_length_below_unfringed_witness :
  (0.258 < 4 /\ 0 < 1.6e-3 /\ 0 < 0.038) /\
  calculate_patch_length __init__ 2.4e9 4 1.6e-3 0.038 <
  c __init__ / (2 * 2.4e9 * sqrt 4).
Proof.
  split; [lra | ].
  apply (patch_length_below_unfringed __init__ 2.4e9 4 1.6e-3 0.038); lra.
Defined.

(** X9: for positive [h] and [W] the effective permittivity is strictly
    increasing in the substrate permittivity; for a substrate of zero
    height (and [W <> 0]) it is the substrate permittivity itself. *)
Theorem effective_permittivity_in_epsilon_r
    (self : MicrostripPatchAntennaCalculator) (e1 e2 h W : R) :
  (0 < h -> 0 < W -> e1 < e2 ->
   calculate_effective_permittivity self e1 h W <
   calculate_effective_permittivity self e2 h W) /\
  (W <> 0 -> calculate_effective_permittivity self e1 0 W = e1).
Proof.
  split.
  - intros Hh HW He. rewrite !effective_permittivity_weight.
    pose proof (fringe_weight_bounds h W Hh HW). nra.
  - intros HW. unfold calculate_effective_permittivity.
    replace (1 + 12 * (0 / W)) with 1 by (field; exact HW).
    rewrite sqrt_1. lra.
Qed.

Lemma effective_permittivity_in_epsilon_r_witness :
  (0 < 1.6e-3 /\ 0 < 0.038 /\ 2.2 < 4.4 /\ 0.038 <> 0) /\
  calculate_effective_permittivity __init__ 2.2 1.6e-3 0.038 <
  calculate_effective_permittivity __init__ 4.4 1.6e-3 0.038 /\
  calculate_effective_permittivity __init__ 2.2 0 0.038 = 2.2.
Proof.
  split; [lra | ].
  destruct (effective_permittivity_in_epsilon_r __init__ 2.2 4.4 1.6e-3 0.038)
    as [Hm Hz].
  split; [apply Hm; lra | apply Hz; lra].
Defined.

(** X10: for a positive speed of light the patch width is strictly
    decreasing in the frequency ([fr > 0]) and in the substrate
    permittivity ([epsilon_r > -1]). *)
Theorem patch_width_decreasing
    (self : MicrostripPatchAntennaCalculator) (fr fr' e e' : R) :
  0 < c self -> 0 < fr -> -1 < e ->
  (fr < fr' ->
   calculate_patch_width self fr' e < calculate_patch_width self fr e) /\
  (e < e' ->
   calculate_patch_width self fr e' < calculate_patch_width self fr e).
Proof.
  intros Hc Hfr He. unfold calculate_patch_width.
  assert (Hs : forall x, -1 < x -> 0 < sqrt (2 / (x + 1))).
  { intros x Hx. apply sqrt_lt_R0, Rdiv_lt_0_compat; lra. }
  assert (Hk : forall f, 0 < f -> 0 < c self / (2 * f)).
  { intros f Hf. apply Rdiv_lt_0_compat; lra. }
  split; intros Hlt.
  - apply Rmult_lt_compat_r; [apply Hs, He | ].
    unfold Rdiv. apply Rmult_lt_compat_l; [exact Hc | ].
    apply Rinv_lt_contravar; nra.
  - apply Rmult_lt_compat_l; [apply Hk, Hfr | ].
    apply sqrt_lt_1.
    + apply Rlt_le, Rdiv_lt_0_compat; lra.
    + apply Rlt_le, Rdiv_lt_0_compat; lra.
    + unfold Rdiv. apply Rmult_lt_compat_l; [lra | ].
      apply Rinv_lt_contravar; nra.
Qed.

Lemma patch_width_decreasing_witness :
  (0 < c __init__ /\ 0 < 2.4e9 /\ -1 < 2.2 /\ 2.4e9 < 5e9 /\ 2.2 < 4.4) /\
  calculate_patch_width __init__ 5e9 2.2 <
  calculate_patch_width __init__ 2.4e9 2.2 /\
  calculate_patch_width __init__ 2.4e9 4.4 <
  calculate_patch_width __init__ 2.4e9 2.2.
Proof.
  assert (Hc : 0 < c __init__) by (simpl; lra).
  split; [repeat split; try exact Hc; lra | ].
  destruct (patch_width_decreasing __init__ 2.4e9 5e9 2.2 4.4 Hc)
    as [Hf He]; lra.
Defined.

(** ** When the pipeline raises *)

(** The divisors of Python floats that the checked pipeline does not
    test are never zero. *)
Lemma pipeline_python_divisors
    (quad : (R -> R) -> R -> R -> R * R) (j0 : R -> R)
    (self : MicrostripPatchAntennaCalculator)
    (W L fr R_in_edge I1 : R) :
  let G := calculate_conductances quad j0 self W L fr in
  2 * (fst G + snd G) <> 0 /\
  (~ R_in_edge < 50 -> R_in_edge <> 0) /\
  (0 < I1 -> I1 <> 0).
Proof.
  intros G. subst G. rewrite conductances_fst, conductances_snd.
  pose proof (py_max_ge_r
    (fst (quad (integrand_G1 (2 * PI / (c self / fr)) W) 0 PI)
     / (120 * PI ^ 2)) 1e-12).
  pose proof (py_max_ge_r
    (fst (quad (integrand_G12 j0 (2 * PI / (c self / fr)) W L) 0 PI)
     / (120 * PI ^ 2)) 1e-12).
  repeat split; intros; lra.
Qed.

Lemma checked_returns
    (quad : (R -> R) -> R -> R -> R * R)
    (dblquad : (R -> R -> R) -> R -> R -> (R -> R) -> (R -> R) -> R * R)
    (j0 : R -> R) (self : MicrostripPatchAntennaCalculator)
    (fr epsilon_r h : R) :
  fr <> 0 -> epsilon_r <> -1 -> c self <> 0 -> Rabs fr < float_overflow ->
  calculate_antenna_parameters_checked quad dblquad j0 self fr epsilon_r h =
  inr (calculate_antenna_parameters quad dblquad j0 self fr epsilon_r h).
Proof.
  intros Hfr He Hc Hov. unfold calculate_antenna_parameters_checked.
  destruct (Req_dec_T (2 * fr) 0) as [E | _]; [exfalso; lra | ].
  destruct (Req_dec_T (epsilon_r + 1) 0) as [E | _]; [exfalso; lra | ].
  destruct (Req_dec_T (c self / fr) 0) as [E | _].
  - exfalso. unfold Rdiv in E. apply Rmult_integral in E.
    destruct E as [E | E]; [contradiction | ].
    exact (Rinv_neq_0_compat fr Hfr E).
  - destruct (Rle_dec float_overflow (Rabs fr)) as [E | _];
      [exfalso; lra | reflexivity].
Qed.

(** A frequency of at most 100 GHz is far below the overflow boundary. *)
Lemma in_range_no_overflow (f : R) :
  0 <= f <= 100 -> Rabs (f * 1e9) < float_overflow.
Proof.
  intros [H0 H1].
  assert (Hb : IZR 100000000001 < float_overflow)
    by (unfold float_overflow; apply IZR_lt; reflexivity).
  rewrite Rabs_pos_eq by lra. lra.
Qed.

Lemma checked_raises
    (quad : (R -> R) -> R -> R -> R * R)
    (dblquad : (R -> R -> R) -> R -> R -> (R -> R) -> (R -> R) -> R * R)
    (j0 : R -> R) (self : MicrostripPatchAntennaCalculator)
    (fr epsilon_r h : R) :
  fr = 0 \/ epsilon_r = -1 \/ c self = 0 ->
  calculate_antenna_parameters_checked quad dblquad j0 self fr epsilon_r h =
  inl ZeroDivisionError.
Proof.
  intros H. unfold calculate_antenna_parameters_checked.
  destruct (Req_dec_T (2 * fr) 0) as [_ | Hfr]; [reflexivity | ].
  destruct (Req_dec_T (epsilon_r + 1) 0) as [_ | He]; [reflexivity | ].
  destruct (Req_dec_T (c self / fr) 0) as [_ | Hc]; [reflexivity | exfalso].
  destruct H as [H | [H | H]]; try lra.
  apply Hc. rewrite H. unfold Rdiv. ring.
Qed.

(** A frequency that has overflowed to infinity raises as well. *)
Lemma checked_raises_overflow
    (quad : (R -> R) -> R -> R -> R * R)
    (dblquad : (R -> R -> R) -> R -> R -> (R -> R) -> (R -> R) -> R * R)
    (j0 : R -> R) (self : MicrostripPatchAntennaCalculator)
    (fr epsilon_r h : R) :
  float_overflow <= Rabs fr ->
  calculate_antenna_parameters_checked quad dblquad j0 self fr epsilon_r h =
  inl ZeroDivisionError.
Proof.
  intros H. unfold calculate_antenna_parameters_checked.
  destruct (Req_dec_T (2 * fr) 0); [reflexivity | ].
  destruct (Req_dec_T (epsilon_r + 1) 0); [reflexivity | ].
  destruct (Req_dec_T (c self / fr) 0); [reflexivity | ].
  destruct (Rle_dec float_overflow (Rabs fr)); [reflexivity | contradiction].
Qed.

(** ** The result rows *)

Section ResultRows.
Local Open Scope string_scope.

Lemma set_item_same (d : string -> option string) (key value : string) :
  GUI.set_item d key value key = Some value.
Proof. unfold GUI.set_item. rewrite String.eqb_refl. reflexivity. Qed.

Lemma set_item_other (d : string -> option string) (key value k : string) :
  k <> key -> GUI.set_item d key value k = d k.
Proof.
  intros H. unfold GUI.set_item.
  apply String.eqb_neq in H. rewrite H. reflexivity.
Qed.

(** One turn of the display loop keeps the set of keys. *)
Lemma set_shown_keys (vars : string -> option string)
    (item : string * string) (k : string) :
  GUI.set_shown vars item k = None <-> vars k = None.
Proof.
  destruct item as [key value]. unfold GUI.set_shown.
  destruct (vars key) as [old | ] eqn:E; [ | tauto].
  destruct (string_dec k key) as [-> | Hne].
  - rewrite set_item_same, E. split; discriminate.
  - rewrite set_item_other by exact Hne. tauto.
Qed.

Lemma fold_set_shown_keys (items : list (string * string)) :
  forall (vars : string -> option string) (k : string),
  fold_left GUI.set_shown items vars k = None <-> vars k = None.
Proof.
  induction items as [ | item items IH]; intros vars k; simpl.
  - tauto.
  - rewrite IH. apply set_shown_keys.
Qed.

Lemma fold_set_shown_other (items : list (string * string)) :
  forall (vars : string -> option string) (k : string),
  ~ In k (map fst items) ->
  fold_left GUI.set_shown items vars k = vars k.
Proof.
  induction items as [ | [key value] items IH]; intros vars k Hk; simpl.
  - reflexivity.
  - simpl in Hk. rewrite IH by tauto.
    unfold GUI.set_shown. destruct (vars key); [ | reflexivity].
    apply set_item_other. intros ->. tauto.
Qed.

Lemma fold_set_shown_value (items : list (string * string)) :
  forall (vars : string -> option string) (k v : string),
  NoDup (map fst items) -> In (k, v) items -> vars k <> None ->
  fold_left GUI.set_shown items vars k = Some v.
Proof.
  induction items as [ | [key value] items IH]; intros vars k v Hnd Hin Hk;
    simpl in *.
  - contradiction.
  - inversion Hnd as [ | ? ? Hnotin Hnd']; subst.
    destruct Hin as [E | Hin].
    + inversion E; subst.
      rewrite fold_set_shown_other by exact Hnotin.
      unfold GUI.set_shown. destruct (vars k); [ | contradiction].
      apply set_item_same.
    + apply IH; try assumption.
      intros Hnone. apply Hk.
      exact (proj1 (set_shown_keys vars (key, value) k) Hnone).
Qed.

Lemma formatted_results_keys (format : GUI.FormatSpec -> R -> string)
    (results : Results) :
  map fst (GUI.formatted_results format results) = GUI.result_keys.
Proof. reflexivity. Qed.

Lemma result_keys_distinct : NoDup GUI.result_keys.
Proof.
  unfold GUI.result_keys. simpl.
  repeat constructor; simpl; intuition discriminate.
Qed.

(** The rows made by [setup_results_panel] are the keys of the two
    tables, each showing [--]. *)
Lemma setup_results_panel_rows (k : string) :
  (In k GUI.result_keys -> GUI.setup_results_panel k = Some "--") /\
  (~ In k GUI.result_keys -> GUI.setup_results_panel k = None).
Proof.
  unfold GUI.result_keys, GUI.setup_results_panel, GUI.geom_params,
    GUI.elec_params.
  simpl. unfold GUI.set_item. split.
  - intros H.
    repeat (destruct H as [<- | H]; [reflexivity | ]). contradiction.
  - intros H.
    repeat match goal with
    | |- context [String.eqb k ?s] =>
        destruct (String.eqb_spec k s) as [-> | _]; [exfalso; tauto | ]
    end.
    reflexivity.
Qed.

End ResultRows.

(** ** The window *)

Section Window.
Local Open Scope string_scope.

Variable strip : string -> string.
Variable float : string -> option R.
Variable format : GUI.FormatSpec -> R -> string.
Variable exception_text : PyException -> string.
Variable quad : (R -> R) -> R -> R -> R * R.
Variable dblquad :
  (R -> R -> R) -> R -> R -> (R -> R) -> (R -> R) -> R * R.
Variable j0 : R -> R.

(** X11: [update_results_display] never adds or removes a result row; a
    row whose key is one of the eight formatted keys shows the formatted
    value afterwards, any other row keeps its text.  In the window as
    constructed, whose rows are exactly those eight keys, every row
    therefore leaves [--] for its value. *)
Theorem display_shows_formatted (g : GUI.State) (results : Results)
    (k : string) :
  let g' := GUI.update_results_display format g results in
  (GUI.result_vars g' k = None <-> GUI.result_vars g k = None) /\
  (forall v, In (k, v) (GUI.formatted_results format results) ->
     GUI.result_vars g k <> None -> GUI.result_vars g' k = Some v) /\
  (~ In k GUI.result_keys -> GUI.result_vars g' k = GUI.result_vars g k) /\
  (forall v, In (k, v) (GUI.formatted_results format results) ->
     GUI.result_vars
       (GUI.update_results_display format GUI.__init__ results) k = Some v).
Proof.
  intros g'. subst g'. unfold GUI.update_results_display.
  cbn [GUI.result_vars].
  assert (Hnd : NoDup (map fst (GUI.formatted_results format results)))
    by (rewrite formatted_results_keys; apply result_keys_distinct).
  split; [apply fold_set_shown_keys | ].
  split; [intros v Hin Hk; apply fold_set_shown_value; assumption | ].
  split.
  - intros Hk. apply fold_set_shown_other.
    rewrite formatted_results_keys. exact Hk.
  - intros v Hin. apply fold_set_shown_value; try assumption.
    assert (Hkey : In k GUI.result_keys).
    { rewrite <- (formatted_results_keys format results).
      apply (in_map fst) in Hin. exact Hin. }
    unfold GUI.__init__. cbn [GUI.result_vars].
    rewrite (proj1 (setup_results_panel_rows k) Hkey). discriminate.
Qed.

Lemma is_empty_true (s : string) : GUI.is_empty s = true <-> s = EmptyString.
Proof. destruct s; simpl; split; intros H; try reflexivity; discriminate. Qed.

(** The guard on blank fields, as a proposition. *)
Lemma blank_guard (g : GUI.State) :
  (GUI.is_empty (strip (GUI.freq g))
   || GUI.is_empty (strip (GUI.epsilon g))
   || GUI.is_empty (strip (GUI.height g)))%bool = true <->
  (strip (GUI.freq g) = EmptyString \/
   strip (GUI.epsilon g) = EmptyString \/
   strip (GUI.height g) = EmptyString).
Proof.
  rewrite !Bool.orb_true_iff, !is_empty_true. tauto.
Qed.

(** X12: [calculate_parameters] is all or nothing.  Either it shows no
    message box, stores a result and leaves the entries and the calculator
    as they were; or it leaves the whole state as it was (results stored
    earlier and the rows shown included) and shows exactly one error
    box. *)
Theorem calculate_parameters_all_or_nothing (g : GUI.State) :
  let out := GUI.calculate_parameters strip float format exception_text
               quad dblquad j0 g in
  (snd out = [] /\
   (exists results, GUI.current_results (fst out) = Some results) /\
   GUI.freq (fst out) = GUI.freq g /\
   GUI.epsilon (fst out) = GUI.epsilon g /\
   GUI.height (fst out) = GUI.height g /\
   GUI.calculator (fst out) = GUI.calculator g) \/
  (fst out = g /\
   exists message, snd out = [GUI.showerror "Ошибка" message]).
Proof.
  intros out. subst out. unfold GUI.calculate_parameters.
  assert (Hno : forall message,
            (fst (g, [GUI.showerror "Ошибка" message]) = g /\
             exists m, snd (g, [GUI.showerror "Ошибка" message]) =
                       [GUI.showerror "Ошибка" m]))
    by (intros message; split; [reflexivity | eexists; reflexivity]).
  destruct (_ || _ || _)%bool; [right; apply Hno | ].
  destruct (float (strip (GUI.freq g))) as [f | ];
    destruct (float (strip (GUI.epsilon g))) as [e | ];
    destruct (float (strip (GUI.height g))) as [h | ];
    try (right; apply Hno).
  destruct (calculate_antenna_parameters_checked _ _ _ _ _ _ _)
    as [exn | results]; [right; apply Hno | left].
  cbn. repeat split; eauto.
Qed.

(** X13: what [calculate_parameters] refuses.  A field that is blank
    after [strip] gives the box "all fields must be filled"; otherwise a
    field that [float] rejects gives the box "all parameters must be
    numbers"; otherwise a frequency of 0, a permittivity of -1 (or a
    calculator whose speed of light is 0) gives the calculation-error box
    with the text of [ZeroDivisionError].  In each case the state is
    returned as it was. *)
Theorem calculate_parameters_refusals (g : GUI.State) :
  let out := GUI.calculate_parameters strip float format exception_text
               quad dblquad j0 g in
  let blank := strip (GUI.freq g) = EmptyString \/
               strip (GUI.epsilon g) = EmptyString \/
               strip (GUI.height g) = EmptyString in
  (blank ->
   out = (g, [GUI.showerror "Ошибка" "Все поля должны быть заполнены"])) /\
  (~ blank ->
   float (strip (GUI.freq g)) = None \/
   float (strip (GUI.epsilon g)) = None \/
   float (strip (GUI.height g)) = None ->
   out = (g, [GUI.showerror "Ошибка" "Все параметры должны быть числами"])) /\
  (forall f e h, ~ blank ->
   float (strip (GUI.freq g)) = Some f ->
   float (strip (GUI.epsilon g)) = Some e ->
   float (strip (GUI.height g)) = Some h ->
   f = 0 \/ e = -1 \/ c (GUI.calculator g) = 0 ->
   out = (g, [GUI.showerror "Ошибка"
                ("Ошибка расчета: " ++ exception_text ZeroDivisionError)])).
Proof.
  intros out blank. subst out blank. unfold GUI.calculate_parameters.
  pose proof (blank_guard g) as Hg.
  destruct (_ || _ || _)%bool.
  - split; [reflexivity | ].
    split; [intros Hn; exfalso; apply Hn, Hg; reflexivity | ].
    intros f e h Hn. exfalso. apply Hn, Hg. reflexivity.
  - split; [intros Hb; apply Hg in Hb; discriminate | ].
    split.
    + intros _ Hnone.
      destruct (float (strip (GUI.freq g)));
        destruct (float (strip (GUI.epsilon g)));
        destruct (float (strip (GUI.height g)));
        try reflexivity.
      destruct Hnone as [H | [H | H]]; discriminate.
    + intros f e h _ -> -> -> Hzero.
      rewrite checked_raises; [reflexivity | ].
      destruct Hzero as [-> | [-> | Hc]]; [left; lra | right; left; lra | ].
      right; right; exact Hc.
Qed.

(** An accepted calculation stores the pipeline result.  The entries
    are taken in the ranges the window announces as admissible. *)
Lemma calculate_parameters_accepted_results (g : GUI.State) (f e h : R) :
  strip (GUI.freq g) <> EmptyString ->
  strip (GUI.epsilon g) <> EmptyString ->
  strip (GUI.height g) <> EmptyString ->
  float (strip (GUI.freq g)) = Some f ->
  float (strip (GUI.epsilon g)) = Some e ->
  float (strip (GUI.height g)) = Some h ->
  0.1 <= f <= 100 -> 1 <= e <= 20 -> 0.01 <= h <= 100 ->
  c (GUI.calculator g) = 3e8 ->
  GUI.calculate_parameters strip float format exception_text
    quad dblquad j0 g =
  (GUI.update_results_display format
     {| GUI.calculator := GUI.calculator g;
        GUI.freq := GUI.freq g; GUI.epsilon := GUI.epsilon g;
        GUI.height := GUI.height g;
        GUI.current_results :=
          Some (calculate_antenna_parameters quad dblquad j0
                  (GUI.calculator g) (f * 1e9) e (h * 1e-3));
        GUI.result_vars := GUI.result_vars g |}
     (calculate_antenna_parameters quad dblquad j0
        (GUI.calculator g) (f * 1e9) e (h * 1e-3)), []).
Proof.
  intros Hf He Hh Ef Ee Eh Rf Re Rh Hc.
  unfold GUI.calculate_parameters.
  pose proof (blank_guard g) as Hg.
  destruct (_ || _ || _)%bool;
    [exfalso; destruct (proj1 Hg eq_refl) as [H | [H | H]]; contradiction | ].
  rewrite Ef, Ee, Eh.
  rewrite checked_returns; [reflexivity | lra | lra | lra | ].
  apply in_range_no_overflow. lra.
Qed.

(** X14: what [calculate_parameters] accepts.  When the three fields are
    not blank and [float] reads them as numbers in the ranges the window
    announces (frequency 0.1 to 100 GHz, permittivity 1 to 20, height
    0.01 to 100 mm), with the calculator as constructed, no box is
    shown, the result stored is that of the pipeline at [f * 1e9] Hz,
    [e] and [h * 1e-3] m, the entries are kept, and the rows are those of
    [update_results_display] on that result. *)
Theorem calculate_parameters_accepts (g : GUI.State) (f e h : R) :
  strip (GUI.freq g) <> EmptyString ->
  strip (GUI.epsilon g) <> EmptyString ->
  strip (GUI.height g) <> EmptyString ->
  float (strip (GUI.freq g)) = Some f ->
  float (strip (GUI.epsilon g)) = Some e ->
  float (strip (GUI.height g)) = Some h ->
  0.1 <= f <= 100 -> 1 <= e <= 20 -> 0.01 <= h <= 100 ->
  c (GUI.calculator g) = 3e8 ->
  let out := GUI.calculate_parameters strip float format exception_text
               quad dblquad j0 g in
  let results := calculate_antenna_parameters quad dblquad j0
                   (GUI.calculator g) (f * 1e9) e (h * 1e-3) in
  snd out = [] /\
  GUI.current_results (fst out) = Some results /\
  GUI.freq (fst out) = GUI.freq g /\
  GUI.epsilon (fst out) = GUI.epsilon g /\
  GUI.height (fst out) = GUI.height g /\
  GUI.result_vars (fst out) =
    GUI.result_vars (GUI.update_results_display format g results).
Proof.
  intros Hf He Hh Ef Ee Eh Rf Re Rh Hc out results. subst out results.
  rewrite (calculate_parameters_accepted_results g f e h) by assumption.
  cbn. repeat split; reflexivity.
Qed.



End Window.

Lemma calculate_parameters_refusals_witness :
  let g := {| GUI.calculator := __init__;
              GUI.freq := "0"; GUI.epsilon := "4.4"; GUI.height := "1.6";
              GUI.current_results := None;
              GUI.result_vars := GUI.setup_results_panel |} in
  GUI.calculate_parameters strip_trimmed float_table format_mark
    zero_division_text midpoint2_quad (reporting_dblquad 2) series_j0 g =
  (g, [GUI.showerror "Ошибка"
         ("Ошибка расчета: " ++ zero_division_text ZeroDivisionError)]).
Proof.
  intros g.
  apply (proj2 (proj2 (calculate_parameters_refusals strip_trimmed
                         float_table format_mark zero_division_text
                         midpoint2_quad (reporting_dblquad 2) series_j0 g))
           0 4.4 1.6).
  - intros [H | [H | H]]; discriminate H.
  - reflexivity.
  - reflexivity.
  - reflexivity.
  - left. reflexivity.
Defined.

Lemma calculate_parameters_accepts_witness :
  let out := GUI.calculate_parameters strip_trimmed float_table format_mark
               zero_division_text midpoint2_quad (reporting_dblquad 2)
               series_j0 GUI.__init__ in
  snd out = [] /\
  GUI.current_results (fst out) =
    Some (calculate_antenna_parameters midpoint2_quad (reporting_dblquad 2)
            series_j0 __init__ (2.4 * 1e9) 4.4 (1.6 * 1e-3)).
Proof.
  intros out.
  destruct (calculate_parameters_accepts strip_trimmed float_table
              format_mark zero_division_text midpoint2_quad
              (reporting_dblquad 2) series_j0 GUI.__init__ 2.4 4.4 1.6)
    as (Hnil & Hres & _); try reflexivity; try discriminate; try lra.
  split; [exact Hnil | exact Hres].
Defined.


(** ** Pressing the button twice *)

Lemma fold_set_shown_twice (items : list (string * string))
    (vars : string -> option string) (k : string) :
  NoDup (map fst items) ->
  fold_left GUI.set_shown items (fold_left GUI.set_shown items vars) k =
  fold_left GUI.set_shown items vars k.
Proof.
  intros Hnd.
  destruct (in_dec string_dec k (map fst items)) as [Hin | Hout].
  - apply in_map_iff in Hin. destruct Hin as [[k' v] [E Hin]].
    simpl in E. subst k'.
    destruct (vars k) as [old | ] eqn:Ek.
    + rewrite (fold_set_shown_value items vars k v) by
        (try assumption; rewrite Ek; discriminate).
      apply fold_set_shown_value; try assumption.
      rewrite (fold_set_shown_value items vars k v) by
        (try assumption; rewrite Ek; discriminate).
      discriminate.
    + rewrite (proj2 (fold_set_shown_keys items vars k) Ek).
      apply fold_set_shown_keys, fold_set_shown_keys, Ek.
  - rewrite !fold_set_shown_other by exact Hout. reflexivity.
Qed.

(** X16: a second press of the button on unchanged entries changes
    nothing more: it shows the same boxes as the first, stores the same
    result and leaves every row with the same text. *)
Theorem calculate_parameters_idempotent
    (strip : string -> string) (float : string -> option R)
    (format : GUI.FormatSpec -> R -> string)
    (exception_text : PyException -> string)
    (quad : (R -> R) -> R -> R -> R * R)
    (dblquad : (R -> R -> R) -> R -> R -> (R -> R) -> (R -> R) -> R * R)
    (j0 : R -> R) (g : GUI.State) :
  let press := GUI.calculate_parameters strip float format exception_text
                 quad dblquad j0 in
  let once := press g in
  let twice := press (fst once) in
  snd twice = snd once /\
  GUI.current_results (fst twice) = GUI.current_results (fst once) /\
  (forall k, GUI.result_vars (fst twice) k = GUI.result_vars (fst once) k) /\
  GUI.freq (fst twice) = GUI.freq g /\
  GUI.epsilon (fst twice) = GUI.epsilon g /\
  GUI.height (fst twice) = GUI.height g.
Proof.
  intros press once twice. subst twice once press.
  unfold GUI.calculate_parameters.
  destruct (GUI.is_empty (strip (GUI.freq g))
            || GUI.is_empty (strip (GUI.epsilon g))
            || GUI.is_empty (strip (GUI.height g)))%bool eqn:Eb.
  { cbn [fst snd]. rewrite Eb. cbn [fst snd]. repeat split. }
  destruct (float (strip (GUI.freq g))) as [f | ] eqn:Ef;
    destruct (float (strip (GUI.epsilon g))) as [e | ] eqn:Ee;
    destruct (float (strip (GUI.height g))) as [h | ] eqn:Eh;
    try (cbn [fst snd]; rewrite Eb, ?Ef, ?Ee, ?Eh; cbn [fst snd];
         repeat split; fail).
  destruct (calculate_antenna_parameters_checked quad dblquad j0
              (GUI.calculator g) (f * 1e9) e (h * 1e-3))
    as [exn | results] eqn:Ec.
  { cbn [fst snd]. rewrite Eb, Ef, Ee, Eh, Ec. cbn [fst snd].
    repeat split. }
  cbn [fst snd GUI.update_results_display GUI.freq GUI.epsilon GUI.height
       GUI.calculator GUI.current_results GUI.result_vars].
  rewrite Eb, Ef, Ee, Eh, Ec.
  cbn [fst snd GUI.update_results_display GUI.freq GUI.epsilon GUI.height
       GUI.calculator GUI.current_results GUI.result_vars].
  repeat split.
  intros k. apply fold_set_shown_twice.
  rewrite formatted_results_keys. apply result_keys_distinct.
Qed.

(** ** The integrands away from the singular angle *)




